(** * Soft Actor-Critic model wrappers of [model.py]

    A shallow embedding of the actor network, the policy wrapper, the
    Polyak update of the critic wrapper and the entropy-temperature holder.

    Tensor entries of the actor and of the temperature are real numbers:
    [exp], [tanh] and [log] have no bit-level IEEE definition, so these
    parts are read in exact arithmetic, and a statement that rounding
    would change says so.  The Polyak update only multiplies and adds,
    which IEEE-754 fixes bit for bit, so it is stated over an arithmetic
    interface with two instances: exact reals and binary32 (the default
    dtype of the parameters), the latter on [SpecFloat].  The last two
    lines of [ActorNet.forward] are also given on one binary32 entry, at
    the upper bound of the clamp.

    Convolutions are modelled on batched, 4-dimensional inputs with at
    least one channel. *)

From stdpp Require Import gmap strings.
From Stdlib Require Import List Arith ZArith Bool Lia.
From Stdlib Require Import Reals Lra.
From Stdlib Require Import Floats.SpecFloat.
Import ListNotations.

(** ** Shapes and broadcasting *)

(** Shapes are aligned from the last dimension, so the recursion runs on
    the reversed shape. *)
Fixpoint broadcast_rev (s t : list nat) : option (list nat) :=
  match s, t with
  | [], _ => Some t
  | _, [] => Some s
  | a :: s', b :: t' =>
      match broadcast_rev s' t' with
      | None => None
      | Some r =>
          if a =? b then Some (a :: r)
          else if a =? 1 then Some (b :: r)
          else if b =? 1 then Some (a :: r)
          else None
      end
  end.

Definition broadcast_shapes (s t : list nat) : option (list nat) :=
  option_map (@rev nat) (broadcast_rev (rev s) (rev t)).

(** The index read in an operand of shape [s] when the broadcast result is
    read at [idx]: leading dimensions are dropped, and a dimension of size
    one is always read at [0]. *)
Fixpoint bidx_rev (s idx : list nat) : list nat :=
  match s, idx with
  | d :: s', i :: idx' => (if d =? 1 then 0 else i) :: bidx_rev s' idx'
  | _, _ => []
  end.

Definition bidx (s idx : list nat) : list nat :=
  rev (bidx_rev (rev s) (rev idx)).

Definition numel (s : list nat) : nat := fold_right Nat.mul 1 s.

(** Row-major multi-index of the flat position [n] in a block of shape [s]. *)
Fixpoint unravel (s : list nat) (n : nat) : list nat :=
  match s with
  | [] => []
  | _ :: s' => (n / numel s') :: unravel s' (n mod numel s')
  end.

(** ** Arrays and tensors *)

(** A plain numeric array (a numpy array, or the [.data] of a parameter):
    a shape and the entry at each multi-index. *)
Record ndarray (A : Type) := mkArr { nshape : list nat; ndata : list nat -> A }.
Arguments mkArr {A} _ _.
Arguments nshape {A} _.
Arguments ndata {A} _ _.

(** A tensor of the autograd engine: values plus the flag that ties it to
    the gradient graph. *)
Record tensor := mkT {
  shape : list nat;
  data : list nat -> R;
  requires_grad : bool
}.

Definition bget (t : tensor) (idx : list nat) : R :=
  data t (bidx (shape t) idx).

Definition zeros (s : list nat) : tensor := mkT s (fun _ => 0%R) false.

Definition map_t (f : R -> R) (x : tensor) : tensor :=
  mkT (shape x) (fun idx => f (data x idx)) (requires_grad x).

Definition map2_t (f : R -> R -> R) (x y : tensor) : option tensor :=
  match broadcast_shapes (shape x) (shape y) with
  | Some s =>
      Some (mkT s (fun idx => f (bget x idx) (bget y idx))
                (requires_grad x || requires_grad y))
  | None => None
  end.

(** A factory result created with [requires_grad=True]. *)
Definition with_grad (x : tensor) : tensor := mkT (shape x) (data x) true.

Definition detach (x : tensor) : tensor := mkT (shape x) (data x) false.

(** [.cpu()] moves storage between devices and keeps shape, values and
    flag. *)
Definition cpu (x : tensor) : tensor := x.

(** [.numpy()] refuses a tensor that still requires grad. *)
Definition numpy (x : tensor) : option (ndarray R) :=
  if requires_grad x then None else Some (mkArr (shape x) (data x)).

(** Finite sum [f 0 + ... + f (n-1)]. *)
Definition Rsum (n : nat) (f : nat -> R) : R :=
  fold_right Rplus 0%R (map f (seq 0 n)).

(** [torch.clamp(x, lo, hi)] on one entry. *)
Definition Rclamp (x lo hi : R) : R := Rmin (Rmax x lo) hi.

(** ** Layers of [torch.nn] *)

Module nn.
Section Layers.
Context {A : Type}.

Record conv2d := mkConv2d {
  in_channels : nat;
  out_channels : nat;
  kernel_size : nat;
  stride : nat;
  conv_weight : ndarray A;
  conv_bias : ndarray A
}.

Record linear := mkLinear {
  in_features : nat;
  out_features : nat;
  weight : ndarray A;
  bias : ndarray A
}.

Inductive layer :=
| LConv2d (c : conv2d)
| LReLU
| LFlatten
| LLinear (l : linear).

Definition Sequential := list layer.

(** The constructors of the source; the initial entries of the weight and
    of the bias, drawn at random by the library, are arguments. *)
Definition Conv2d (cin cout k s : nat) (w b : list nat -> A) : layer :=
  LConv2d (mkConv2d cin cout k s (mkArr [cout; cin; k; k] w) (mkArr [cout] b)).

Definition Linear (fin fout : nat) (w b : list nat -> A) : layer :=
  LLinear (mkLinear fin fout (mkArr [fout; fin] w) (mkArr [fout] b)).

Definition ReLU : layer := LReLU.
Definition Flatten : layer := LFlatten.

(** [parameters()] of one layer and of a [Sequential], in registration
    order: weight before bias, layers in sequence. *)
Definition layer_parameters (l : layer) : list (ndarray A) :=
  match l with
  | LConv2d c => [conv_weight c; conv_bias c]
  | LLinear l => [weight l; bias l]
  | LReLU | LFlatten => []
  end.

Definition seq_parameters (m : Sequential) : list (ndarray A) :=
  flat_map layer_parameters m.

(** In-place overwrite of the parameters of a layer by the head of [vs];
    returns the layer and the values left over. *)
Definition layer_load (l : layer) (vs : list (ndarray A)) : layer * list (ndarray A) :=
  match l, vs with
  | LConv2d c, w :: b :: vs' =>
      (LConv2d (mkConv2d (in_channels c) (out_channels c) (kernel_size c)
                  (stride c) w b), vs')
  | LLinear l, w :: b :: vs' =>
      (LLinear (mkLinear (in_features l) (out_features l) w b), vs')
  | _, _ => (l, vs)
  end.

Fixpoint seq_load (m : Sequential) (vs : list (ndarray A))
  : Sequential * list (ndarray A) :=
  match m with
  | [] => ([], vs)
  | l :: m' =>
      let '(l', vs') := layer_load l vs in
      let '(m'', vs'') := seq_load m' vs' in
      (l' :: m'', vs'')
  end.

(** The shape a layer returns on an input of shape [s]; [None] where the
    library raises a shape error.  It depends on no parameter value.

    The convolution is modelled on a batch [B; C; H; W] with [0 < C].  Two
    behaviours of the library lie outside the model, and the statements
    below keep to batched inputs with a channel: an unbatched [C; H; W]
    input is accepted by the library and refused here, and a non-empty
    batch without channels is refused by the library and accepted here. *)
Definition conv2d_out_shape (c : conv2d) (s : list nat) : option (list nat) :=
  match s with
  | [B; C; H; W] =>
      let k := kernel_size c in
      let st := stride c in
      if (C =? in_channels c) && (k <=? H) && (k <=? W) && (0 <? st)
      then Some [B; out_channels c; (H - k) / st + 1; (W - k) / st + 1]
      else None
  | _ => None
  end.

Definition linear_out_shape (l : linear) (s : list nat) : option (list nat) :=
  match rev s with
  | n :: rpre =>
      if n =? in_features l then Some (rev rpre ++ [out_features l]) else None
  | [] => None
  end.

Definition flatten_out_shape (s : list nat) : option (list nat) :=
  match s with
  | B :: d :: rest => Some [B; numel (d :: rest)]
  | _ => None
  end.

Definition out_shape (l : layer) (s : list nat) : option (list nat) :=
  match l with
  | LConv2d c => conv2d_out_shape c s
  | LReLU => Some s
  | LFlatten => flatten_out_shape s
  | LLinear l => linear_out_shape l s
  end.

Fixpoint seq_out_shape (m : Sequential) (s : list nat) : option (list nat) :=
  match m with
  | [] => Some s
  | l :: m' => s' ← out_shape l s; seq_out_shape m' s'
  end.
End Layers.
Arguments conv2d : clear implicits.
Arguments linear : clear implicits.
Arguments layer : clear implicits.
Arguments Sequential : clear implicits.

Section Forward.
Local Open Scope R_scope.

(** Valid (unpadded) 2-D cross-correlation over a batch [B; C; H; W],
    with the domain of [conv2d_out_shape]. *)
Definition conv2d_forward (c : conv2d R) (x : tensor) : option tensor :=
  match shape x with
  | [B; C; H; W] =>
      let k := kernel_size c in
      let s := stride c in
      if (C =? in_channels c)%nat && (k <=? H)%nat && (k <=? W)%nat && (0 <? s)%nat
      then Some (mkT [B; out_channels c; ((H - k) / s + 1)%nat; ((W - k) / s + 1)%nat]
                   (fun idx =>
                      match idx with
                      | [b; o; i; j] =>
                          ndata (conv_bias c) [o] +
                          Rsum C (fun ch => Rsum k (fun u => Rsum k (fun v =>
                            ndata (conv_weight c) [o; ch; u; v]
                            * data x [b; ch; (i * s + u)%nat; (j * s + v)%nat])))
                      | _ => 0
                      end)
                   true)
      else None
  | _ => None
  end.

(** [y = x W^T + b] on the last dimension. *)
Definition linear_forward (l : linear R) (x : tensor) : option tensor :=
  match rev (shape x) with
  | n :: rpre =>
      if (n =? in_features l)%nat
      then Some (mkT (rev rpre ++ [out_features l])
                   (fun idx =>
                      let o := last idx 0%nat in
                      let pre := removelast idx in
                      Rsum n (fun k => data x (pre ++ [k]) * ndata (weight l) [o; k])
                      + ndata (bias l) [o])
                   true)
      else None
  | [] => None
  end.

Definition relu (x : tensor) : tensor := map_t (Rmax 0) x.

(** [Flatten()] keeps the batch dimension and merges the others. *)
Definition flatten (x : tensor) : option tensor :=
  match shape x with
  | B :: d :: rest =>
      Some (mkT [B; numel (d :: rest)]
              (fun idx =>
                 match idx with
                 | [b; n] => data x (b :: unravel (d :: rest) n)
                 | _ => 0
                 end)
              (requires_grad x))
  | _ => None
  end.

Definition forward (l : layer R) (x : tensor) : option tensor :=
  match l with
  | LConv2d c => conv2d_forward c x
  | LReLU => Some (relu x)
  | LFlatten => flatten x
  | LLinear l => linear_forward l x
  end.

Fixpoint seq_forward (m : Sequential R) (x : tensor) : option tensor :=
  match m with
  | [] => Some x
  | l :: m' => y ← forward l x; seq_forward m' y
  end.
End Forward.
End nn.

(** A Python number used where a tensor is expected: a 0-dimensional
    tensor. *)
Definition scalar_tensor (v : R) : tensor := mkT [] (fun _ => v) false.

(** [torch.clamp(x, lo, hi)] with tensor bounds. *)
Definition clamp (x lo hi : tensor) : option tensor :=
  t ← map2_t Rmax x lo; map2_t Rmin t hi.

(** [torch.cat([x, y], 1)] with a matrix [x]: a matrix [y] needs the same
    number of rows, and the columns are put side by side; a 1-dimensional
    [y] without entries is skipped, the one shape the library exempts from
    the rank check. *)
Definition cat1 (x y : tensor) : option tensor :=
  match shape x, shape y with
  | [B; n], [0] =>
      Some (mkT [B; n]
              (fun idx => match idx with [b; j] => data x [b; j] | _ => 0%R end)
              (requires_grad x || requires_grad y))
  | [B; n], [B'; m] =>
      if B =? B'
      then Some (mkT [B; n + m]
                   (fun idx =>
                      match idx with
                      | [b; j] => if j <? n then data x [b; j] else data y [b; j - n]
                      | _ => 0%R
                      end)
                   (requires_grad x || requires_grad y))
      else None
  | _, _ => None
  end.

(** ** [ActorNet] *)

Module ActorNet.
Record t := mk {
  max_action : tensor;
  conv_layers : nn.Sequential R;
  flattened_size : nat;
  fc : nn.layer R;
  mean : nn.layer R;
  log_std : nn.layer R
}.

(** Dry run of the convolutional stack on a zero batch of one
    observation; the product of the output sizes. *)
Definition _get_conv_output (conv_layers : nn.Sequential R)
    (shape_ : nat * nat * nat) : option nat :=
  let '(c, h, w) := shape_ in
  output ← nn.seq_forward conv_layers (zeros [1; c; h; w]);
  Some (numel (shape output)).

(** [init] gives the initial entries of each parameter, by its name in
    the module. *)
Definition __init__ (max_action : tensor) (input_shape : nat * nat * nat)
    (action_dim : nat) (init : string -> list nat -> R) : option t :=
  let conv_layers :=
    [ nn.Conv2d (fst (fst input_shape)) 32 8 4
        (init "conv_layers.0.weight") (init "conv_layers.0.bias");
      nn.ReLU;
      nn.Conv2d 32 64 4 2
        (init "conv_layers.2.weight") (init "conv_layers.2.bias");
      nn.ReLU;
      nn.Conv2d 64 64 3 1
        (init "conv_layers.4.weight") (init "conv_layers.4.bias");
      nn.ReLU;
      nn.Flatten ] in
  flattened_size ← _get_conv_output conv_layers input_shape;
  Some (mk max_action conv_layers flattened_size
          (nn.Linear flattened_size 512 (init "fc.weight") (init "fc.bias"))
          (nn.Linear 512 action_dim (init "mean.weight") (init "mean.bias"))
          (nn.Linear 512 action_dim (init "log_std.weight") (init "log_std.bias"))).

(** Entries are exact reals, [tanh] and [exp] the real functions.  The
    last two lines are given again on a binary32 entry as
    [ActorNet_std_f32]. *)
Definition forward (self : t) (state : tensor) : option (tensor * tensor) :=
  x ← nn.seq_forward (conv_layers self) state;
  x ← nn.forward (fc self) x;
  let x := nn.relu x in
  m ← nn.forward (mean self) x;
  mean ← map2_t Rmult (max_action self) (map_t tanh m);
  log_std ← nn.forward (log_std self) x;
  let log_std := map_t (fun v => Rclamp v (-20) 2) log_std in
  let std := map_t exp log_std in
  Some (mean, std).
End ActorNet.

(** ** [torch.distributions.Normal] *)

Module Normal.
Record t := mk { loc : tensor; scale : tensor }.

Definition expand (x : tensor) (s : list nat) : tensor :=
  mkT s (fun idx => bget x idx) (requires_grad x).

(** The constructor broadcasts [loc] and [scale] to a common shape. *)
Definition make (loc scale : tensor) : option t :=
  s ← broadcast_shapes (shape loc) (shape scale);
  Some (mk (expand loc s) (expand scale s)).

(** [sample()]: one standard-normal draw [eps idx] per entry, scaled and
    shifted, outside the gradient graph. *)
Definition sample (d : t) (eps : list nat -> R) : tensor :=
  mkT (shape (loc d))
      (fun idx => (data (loc d) idx + data (scale d) idx * eps idx)%R)
      false.

(** [log_prob(value)], as the library computes it:
    [-((value - loc)^2) / (2 var) - log scale - log (sqrt (2 pi))]. *)
Definition log_prob (d : t) (value : tensor) : option tensor :=
  let var := map_t (fun s => s ^ 2)%R (scale d) in
  let log_scale := map_t ln (scale d) in
  diff ← map2_t Rminus value (loc d);
  let num := map_t (fun v => - v ^ 2)%R diff in
  q ← map2_t Rdiv num (map_t (fun v => 2 * v)%R var);
  r ← map2_t Rminus q log_scale;
  Some (map_t (fun v => v - ln (sqrt (2 * PI)))%R r).
End Normal.

(** The density of the Gaussian with mean [mu] and deviation [sigma], and
    its logarithm, as the specification words it. *)
Definition gaussian_pdf (mu sigma x : R) : R :=
  (/ (sigma * sqrt (2 * PI)) * exp (- ((x - mu) ^ 2 / (2 * sigma ^ 2))))%R.

Definition gaussian_log_prob (mu sigma x : R) : R := ln (gaussian_pdf mu sigma x).

(** ** [Actor] *)

Module Actor.
Record t := mk {
  device : string;
  actor_lr : R;
  min_action : tensor;
  max_action : tensor;
  actor_net : ActorNet.t
}.

(** [.to(device)] keeps shape, values and flag.  The network is built
    with the default input shape and the default [action_dim] of
    [ActorNet].  The optimizer, which only [learn] uses, is left out of
    the record. *)
Definition __init__ (device : string) (actor_lr : R)
    (min_action max_action : tensor) (init : string -> list nat -> R)
  : option t :=
  actor_net ← ActorNet.__init__ max_action (1, 84, 84) 5 init;
  Some (mk device actor_lr min_action max_action actor_net).

(** [eps] holds the standard-normal draws of [dist.sample()]. *)
Definition choose_action (self : t) (state : tensor) (eps : list nat -> R)
  : option (ndarray R) :=
  '(mean, std) ← ActorNet.forward (actor_net self) state;
  dist ← Normal.make mean std;
  let action := Normal.sample dist eps in
  action ← clamp action (min_action self) (max_action self);
  numpy (cpu (detach action)).

(** [eps] holds the draw of [noise.sample()].  Entries are exact reals:
    the real [tanh] never reaches [1] or [-1] and [1e-6] is the exact
    fraction, where binary32 rounds both. *)
Definition evaluate (self : t) (state : tensor) (eps : list nat -> R)
  : option (tensor * tensor * tensor * tensor * tensor) :=
  '(mean, std) ← ActorNet.forward (actor_net self) state;
  dist ← Normal.make mean std;
  noise ← Normal.make (scalar_tensor 0) (scalar_tensor 1);
  let z := Normal.sample noise eps in
  sz ← map2_t Rmult std z;
  pre ← map2_t Rplus mean sz;
  let action := map_t tanh pre in
  action ← clamp action (min_action self) (max_action self);
  sz' ← map2_t Rmult std z;
  pre' ← map2_t Rplus mean sz';
  lp ← Normal.log_prob dist pre';
  let corr := map_t (fun a => ln (1 - a ^ 2 + 1 / 1000000))%R action in
  action_logprob ← map2_t Rminus lp corr;
  Some (action, action_logprob, z, mean, std).
End Actor.

(** ** Arithmetic of the Polyak update *)

(** [S] is the type of the Python float [tau], [T] the type of a tensor
    entry.  [mul_scalar x s] is the entry of [tensor * s] (and of
    [s * tensor], which dispatches to the same operation). *)
Class Arith (S T : Type) := {
  one_minus : S -> S;
  mul_scalar : T -> S -> T;
  t_add : T -> T -> T
}.

(** Exact arithmetic. *)
#[export] Instance Arith_R : Arith R R := {
  one_minus s := (1 - s)%R;
  mul_scalar x s := (x * s)%R;
  t_add := Rplus
}.

(** IEEE-754 binary64 (Python floats) and binary32 (parameter entries),
    round to nearest even. *)
Module F64.
Definition prec : Z := 53.
Definition emax : Z := 1024.
Definition of_Z (n : Z) : spec_float := binary_normalize prec emax n 0 false.
Definition sub : spec_float -> spec_float -> spec_float := SFsub prec emax.
Definition div : spec_float -> spec_float -> spec_float := SFdiv prec emax.
End F64.

Module F32.
Definition prec : Z := 24.
Definition emax : Z := 128.
Definition of_Z (n : Z) : spec_float := binary_normalize prec emax n 0 false.
Definition mul : spec_float -> spec_float -> spec_float := SFmul prec emax.
Definition add : spec_float -> spec_float -> spec_float := SFadd prec emax.
Definition div : spec_float -> spec_float -> spec_float := SFdiv prec emax.

(** Conversion of a Python float to the dtype of the tensor it meets. *)
Definition of_f64 (x : spec_float) : spec_float :=
  match x with
  | S754_finite s m e => binary_normalize prec emax (cond_Zopp s (Zpos m)) e s
  | _ => x
  end.


(** [torch.clamp(x, lo, hi)] on one entry: [min(max(x, lo), hi)], and a
    NaN stays a NaN. *)
Definition clamp (x lo hi : spec_float) : spec_float :=
  match x with
  | S754_nan => S754_nan
  | _ =>
      let y := if SFltb x lo then lo else x in
      if SFltb hi y then hi else y
  end.

(** [torch.exp] on one entry.  The exponential has no bit-level IEEE
    definition, so the result of the library is given at one argument
    only, the upper bound [2.0] of the clamp in [ActorNet.forward]: there
    it is [7.389056205749512 = 15495974 * 2^-21], the binary32 number
    nearest to [e^2].  Every other argument is left out of the model
    ([None]). *)
Definition exp (x : spec_float) : option spec_float :=
  if SFeqb x (of_Z 2) then Some (S754_finite false 15495974 (-21)) else None.
End F32.


#[export] Instance Arith_F32 : Arith spec_float spec_float := {
  one_minus s := F64.sub (F64.of_Z 1) s;
  mul_scalar x s := F32.mul x (F32.of_f64 s);
  t_add := F32.add
}.

(** ** Plain arrays: elementwise operations and in-place copy *)

Section Arrays.
Context {A : Type}.

Definition amap (f : A -> A) (a : ndarray A) : ndarray A :=
  mkArr (nshape a) (fun idx => f (ndata a idx)).

Definition amap2 (f : A -> A -> A) (a b : ndarray A) : option (ndarray A) :=
  match broadcast_shapes (nshape a) (nshape b) with
  | Some s =>
      Some (mkArr s (fun idx => f (ndata a (bidx (nshape a) idx))
                                 (ndata b (bidx (nshape b) idx))))
  | None => None
  end.

(** [dst.copy_(src)]: [src] must broadcast to the shape of [dst], which
    is kept. *)
Definition copy_ (dst src : ndarray A) : option (ndarray A) :=
  s ← broadcast_shapes (nshape src) (nshape dst);
  if decide (s = nshape dst)
  then Some (mkArr (nshape dst) (fun idx => ndata src (bidx (nshape src) idx)))
  else None.
End Arrays.

(** ** [CriticNet] *)

Module CriticNet.
Section Net.
Context {A : Type}.

Record t := mk {
  conv_layers_q1 : nn.Sequential A;
  flattened_size : nat;
  fc_q1 : nn.Sequential A;
  conv_layers_q2 : nn.Sequential A;
  fc_q2 : nn.Sequential A
}.

(** Only the output size of the dry run is used, so it is computed on
    shapes. *)
Definition _get_conv_output (conv_layers_q1 : nn.Sequential A)
    (shape_ : nat * nat * nat) : option nat :=
  let '(c, h, w) := shape_ in
  output ← nn.seq_out_shape conv_layers_q1 [1; c; h; w];
  Some (numel output).

Definition __init__ (input_shape : nat * nat * nat) (action_dim : nat)
    (init : string -> list nat -> A) : option t :=
  let conv_layers_q1 :=
    [ nn.Conv2d (fst (fst input_shape)) 32 8 4
        (init "conv_layers_q1.0.weight") (init "conv_layers_q1.0.bias");
      nn.ReLU;
      nn.Conv2d 32 64 4 2
        (init "conv_layers_q1.2.weight") (init "conv_layers_q1.2.bias");
      nn.ReLU;
      nn.Conv2d 64 64 3 1
        (init "conv_layers_q1.4.weight") (init "conv_layers_q1.4.bias");
      nn.ReLU;
      nn.Flatten ] in
  flattened_size ← _get_conv_output conv_layers_q1 input_shape;
  let fc_q1 :=
    [ nn.Linear (flattened_size + action_dim) 256
        (init "fc_q1.0.weight") (init "fc_q1.0.bias");
      nn.ReLU;
      nn.Linear 256 256 (init "fc_q1.2.weight") (init "fc_q1.2.bias");
      nn.ReLU;
      nn.Linear 256 1 (init "fc_q1.4.weight") (init "fc_q1.4.bias") ] in
  let conv_layers_q2 :=
    [ nn.Conv2d (fst (fst input_shape)) 32 8 4
        (init "conv_layers_q2.0.weight") (init "conv_layers_q2.0.bias");
      nn.ReLU;
      nn.Conv2d 32 64 4 2
        (init "conv_layers_q2.2.weight") (init "conv_layers_q2.2.bias");
      nn.ReLU;
      nn.Conv2d 64 64 3 1
        (init "conv_layers_q2.4.weight") (init "conv_layers_q2.4.bias");
      nn.ReLU;
      nn.Flatten ] in
  let fc_q2 :=
    [ nn.Linear (flattened_size + action_dim) 256
        (init "fc_q2.0.weight") (init "fc_q2.0.bias");
      nn.ReLU;
      nn.Linear 256 256 (init "fc_q2.2.weight") (init "fc_q2.2.bias");
      nn.ReLU;
      nn.Linear 256 1 (init "fc_q2.4.weight") (init "fc_q2.4.bias") ] in
  Some (mk conv_layers_q1 flattened_size fc_q1 conv_layers_q2 fc_q2).

(** [parameters()]: submodules in the order they are assigned in the
    constructor. *)
Definition parameters (self : t) : list (ndarray A) :=
  nn.seq_parameters (conv_layers_q1 self) ++ nn.seq_parameters (fc_q1 self)
  ++ nn.seq_parameters (conv_layers_q2 self) ++ nn.seq_parameters (fc_q2 self).

(** The network after its parameters were overwritten in place, in
    [parameters()] order, by the values [vs]. *)
Definition load (self : t) (vs : list (ndarray A)) : t :=
  let '(c1, vs) := nn.seq_load (conv_layers_q1 self) vs in
  let '(f1, vs) := nn.seq_load (fc_q1 self) vs in
  let '(c2, vs) := nn.seq_load (conv_layers_q2 self) vs in
  let '(f2, vs) := nn.seq_load (fc_q2 self) vs in
  mk c1 (flattened_size self) f1 c2 f2.
End Net.
Arguments t : clear implicits.

(** The twin forward pass, in exact arithmetic. *)
Definition forward (self : t R) (state action : tensor) : option (tensor * tensor) :=
  state_features_q1 ← nn.seq_forward (conv_layers_q1 self) state;
  q1 ← cat1 state_features_q1 action;
  q1 ← nn.seq_forward (fc_q1 self) q1;
  state_features_q2 ← nn.seq_forward (conv_layers_q2 self) state;
  q2 ← cat1 state_features_q2 action;
  q2 ← nn.seq_forward (fc_q2 self) q2;
  Some (q1, q2).
End CriticNet.

(** ** [Critic] *)

Module Critic.
Section Wrapper.
Context {S T : Type} `{Arith S T}.

Record t := mk {
  tau : S;
  critic_lr : S;
  device : string;
  critic_net : CriticNet.t T;
  target_net : CriticNet.t T
}.

(** The two networks are built independently, each with its own initial
    values.  The optimizer and the loss function, which only [learn] uses,
    are left out of the record. *)
Definition __init__ (device : string) (critic_lr tau : S)
    (init_critic init_target : string -> list nat -> T) : option t :=
  critic_net ← CriticNet.__init__ (1, 84, 84) 5 init_critic;
  target_net ← CriticNet.__init__ (1, 84, 84) 5 init_target;
  Some (mk tau critic_lr device critic_net target_net).

(** The body of the loop of [update]:
    [target_param.data.copy_(target_param.data * (1.0 - tau) + param.data * tau)]. *)
Definition update_param (tau : S) (target_param param : ndarray T)
  : option (ndarray T) :=
  v ← amap2 t_add
        (amap (fun x => mul_scalar x (one_minus tau)) target_param)
        (amap (fun x => mul_scalar x tau) param);
  copy_ target_param v.

Fixpoint update_loop (tau : S) (pairs : list (ndarray T * ndarray T))
  : option (list (ndarray T)) :=
  match pairs with
  | [] => Some []
  | (target_param, param) :: rest =>
      v ← update_param tau target_param param;
      vs ← update_loop tau rest;
      Some (v :: vs)
  end.

Definition update (self : t) : option t :=
  vs ← update_loop (tau self)
         (zip (CriticNet.parameters (target_net self))
              (CriticNet.parameters (critic_net self)));
  Some (mk (tau self) (critic_lr self) (device self) (critic_net self)
          (CriticNet.load (target_net self) vs)).
End Wrapper.
Arguments t : clear implicits.

Definition get_q_value {S : Type} (self : t S R) (state action : tensor)
  : option (tensor * tensor) :=
  CriticNet.forward (critic_net self) state action.

Definition get_target_q_value {S : Type} (self : t S R) (state action : tensor)
  : option (tensor * tensor) :=
  CriticNet.forward (target_net self) state action.

(** [n] calls of [update] in a row. *)
Fixpoint update_n {S T : Type} `{Arith S T} (n : nat) (self : t S T) : option (t S T) :=
  match n with
  | O => Some self
  | Datatypes.S n' => self' ← update self; update_n n' self'
  end.
End Critic.

(** ** The tensor store *)

(** Tensors are objects: a field holds a reference, an out-of-place
    operation allocates its result, an in-place operation overwrites the
    values behind a reference.  [grads] holds the [.grad] attribute of the
    leaves. *)
Definition loc := positive.

Record store := mkStore {
  tensors : gmap loc tensor;
  grads : gmap loc (list nat -> R)
}.

Definition alloc (st : store) (v : tensor) : loc * store :=
  let l := fresh (dom (tensors st)) in
  (l, mkStore (<[l := v]> (tensors st)) (grads st)).
Arguments alloc : simpl never.

(** Reading behind a reference; the references held by an object are
    allocated. *)
Definition read (st : store) (l : loc) : tensor :=
  default (zeros []) (tensors st !! l).

(** What [loss.backward()] does to the store: it adds, into the [.grad] of
    each leaf the loss depends on, the gradient of the loss.  A loss is
    given by these gradients. *)
Abbreviation loss_t := (gmap loc (list nat -> R)).

Definition backward (loss : loss_t) (st : store) : store :=
  mkStore (tensors st)
    (union_with (fun g g' => Some (fun idx => (g idx + g' idx)%R)) (grads st) loss).

(** ** [torch.optim.Adam], default hyper-parameters *)

Module Adam.
Record param_state := mkState {
  step_count : nat;
  exp_avg : list nat -> R;
  exp_avg_sq : list nat -> R
}.

Record t := mk {
  params : list loc;
  lr : R;
  beta1 : R;
  beta2 : R;
  eps : R;
  state : gmap loc param_state
}.

Definition __init__ (params : list loc) (lr : R) : t :=
  mk params lr (9 / 10) (999 / 1000) (1 / 100000000) ∅.

Definition zero_grad (self : t) (st : store) : store :=
  mkStore (tensors st) (foldr (fun p g => delete p g) (grads st) (params self)).

(** One parameter of [step()]: skipped when it has no gradient. *)
Definition step_param (self : t) (p : loc) (st : store) : t * store :=
  match grads st !! p, tensors st !! p with
  | Some grad, Some param =>
      let s := default (mkState 0 (fun _ => 0%R) (fun _ => 0%R)) (state self !! p) in
      let n := Datatypes.S (step_count s) in
      let m := fun idx => (beta1 self * exp_avg s idx + (1 - beta1 self) * grad idx)%R in
      let v := fun idx => (beta2 self * exp_avg_sq s idx
                           + (1 - beta2 self) * (grad idx * grad idx))%R in
      let bias_correction1 := (1 - beta1 self ^ n)%R in
      let bias_correction2 := (1 - beta2 self ^ n)%R in
      let step_size := (lr self / bias_correction1)%R in
      let denom := fun idx => (sqrt (v idx) / sqrt bias_correction2 + eps self)%R in
      let param' :=
        mkT (shape param)
            (fun idx => (data param idx - step_size * (m idx / denom idx))%R)
            (requires_grad param) in
      (mk (params self) (lr self) (beta1 self) (beta2 self) (eps self)
          (<[p := mkState n m v]> (state self)),
       mkStore (<[p := param']> (tensors st)) (grads st))
  | _, _ => (self, st)
  end.

Definition step (self : t) (st : store) : t * store :=
  foldl (fun '(o, st) p => step_param o p st) (self, st) (params self).
End Adam.

(** ** [Entropy] *)

Module Entropy.
Record t := mk {
  entropy_lr : R;
  target_entropy : Z;
  log_alpha : loc;
  alpha : loc;
  optimizer : Adam.t
}.

Definition __init__ (device : string) (entropy_lr : R) (action_dim : Z)
    (st : store) : t * store :=
  let target_entropy := (- action_dim)%Z in
  let '(log_alpha, st) := alloc st (with_grad (zeros [1])) in
  let '(alpha, st) := alloc st (map_t exp (read st log_alpha)) in
  let optimizer := Adam.__init__ [log_alpha] entropy_lr in
  (mk entropy_lr target_entropy log_alpha alpha optimizer, st).

Definition learn (self : t) (loss : loss_t) (st : store) : t * store :=
  let st := Adam.zero_grad (optimizer self) st in
  let st := backward loss st in
  let '(o, st) := Adam.step (optimizer self) st in
  (mk (entropy_lr self) (target_entropy self) (log_alpha self) (alpha self) o, st).

(** A run of [learn] calls, one loss per call. *)
Definition learn_all (self : t) (losses : list loss_t) (st : store) : t * store :=
  foldl (fun '(e, st) loss => learn e loss st) (self, st) losses.
End Entropy.

(** ** Vocabulary of the statements and sample inputs *)

(** Output size of an unpadded convolution of kernel [k] and stride [s]
    on an input of size [h], and of the stack of three convolutions of the
    two networks. *)
Definition conv_out (h k s : nat) : nat := (h - k) / s + 1.

Definition conv_stack_out (h : nat) : nat :=
  conv_out (conv_out (conv_out h 8 4) 4 2) 3 1.

(** The convolutional stack that both networks build: three strided
    convolutions, each followed by a ReLU, then a flatten. *)
Definition conv_stack {A : Type} (cin : nat) (w0 b0 w2 b2 w4 b4 : list nat -> A)
  : nn.Sequential A :=
  [ nn.Conv2d cin 32 8 4 w0 b0; nn.ReLU;
    nn.Conv2d 32 64 4 2 w2 b2; nn.ReLU;
    nn.Conv2d 64 64 3 1 w4 b4; nn.ReLU;
    nn.Flatten ].

(** The head of each critic branch: three linear layers with a ReLU in
    between. *)
Definition fc_stack {A : Type} (fin : nat) (w0 b0 w2 b2 w4 b4 : list nat -> A)
  : nn.Sequential A :=
  [ nn.Linear fin 256 w0 b0; nn.ReLU;
    nn.Linear 256 256 w2 b2; nn.ReLU;
    nn.Linear 256 1 w4 b4 ].

(** Two batches of the same shape that agree on observation [b]: every
    entry whose first index is [b]. *)
Definition rows_agree (b : nat) (x y : tensor) : Prop :=
  shape x = shape y
  /\ forall rest, rest <> [] -> data x (b :: rest) = data y (b :: rest).

(** An index is valid for a shape when it has one entry per dimension,
    each below the size of its dimension. *)
Definition valid_index (s idx : list nat) : Prop := Forall2 lt idx s.

(** The shape-level run of [ActorNet.forward]: the shape of [mean] and of
    [std], or [None] where the forward pass raises. *)
Definition ActorNet_forward_shape (net : ActorNet.t) (s : list nat)
  : option (list nat * list nat) :=
  s1 ← nn.seq_out_shape (ActorNet.conv_layers net) s;
  s2 ← nn.out_shape (ActorNet.fc net) s1;
  sm ← nn.out_shape (ActorNet.mean net) s2;
  smean ← broadcast_shapes (shape (ActorNet.max_action net)) sm;
  sstd ← nn.out_shape (ActorNet.log_std net) s2;
  Some (smean, sstd).

(** [torch.tensor([...])]: a vector. *)
Definition tensor_of_list (l : list R) : tensor :=
  mkT [length l] (fun idx => match idx with [i] => nth i l 0%R | _ => 0%R end) false.

(** Sample inputs: bound vectors, an all-zero initialisation, the zero
    observation batch of one frame, all-zero noise. *)
Definition ones5 : tensor := tensor_of_list [1; 1; 1; 1; 1]%R.
Definition neg_ones5 : tensor := tensor_of_list [-1; -1; -1; -1; -1]%R.
Definition ones2 : tensor := tensor_of_list [1; 1]%R.
Definition neg_ones2 : tensor := tensor_of_list [-1; -1]%R.
Definition init0 : string -> list nat -> R := fun _ _ => 0%R.
Definition obs0 : tensor := zeros [1; 1; 84; 84].
Definition eps0 : list nat -> R := fun _ => 0%R.

(** Two batches of two observations that differ in observation 0 only. *)
Definition obs_pair0 : tensor := zeros [2; 1; 84; 84].
Definition obs_pair1 : tensor :=
  mkT [2; 1; 84; 84]
      (fun idx => match idx with 0 :: _ => 1%R | _ => 0%R end) false.

(** The shapes of [mean] and [std] for a batch of [B] observations of the
    default input shape, given the shape of the action bound. *)
Definition default_forward_shape (smax : list nat) (B : nat)
  : option (list nat * list nat) :=
  smean ← broadcast_shapes smax [B; 5]; Some (smean, [B; 5]).

(** The online and the target network have parameters of the same shapes,
    position by position: both are built by the same constructor, and no
    operation of the wrappers changes a shape. *)
Definition same_shapes {S T : Type} (c : Critic.t S T) : Prop :=
  map nshape (CriticNet.parameters (Critic.target_net c))
  = map nshape (CriticNet.parameters (Critic.critic_net c)).

(** The value the loop body of [update] writes at one entry. *)
Definition polyak {S T : Type} `{Arith S T} (tau : S) (old online : T) : T :=
  t_add (mul_scalar old (one_minus tau)) (mul_scalar online tau).


(** The Python literals [0.005] and [0.0003], and the binary32 value
    [1.5]. *)
Definition tau_0_005 : spec_float := F64.div (F64.of_Z 5) (F64.of_Z 1000).
Definition lr_0_0003 : spec_float := F64.div (F64.of_Z 3) (F64.of_Z 10000).
Definition f32_1_5 : spec_float := F32.div (F32.of_Z 3) (F32.of_Z 2).

(** A binary32 critic whose two networks hold [1.5] in every entry. *)
Definition critic_1_5 : option (Critic.t spec_float spec_float) :=
  Critic.__init__ "cpu" lr_0_0003 tau_0_005 (fun _ _ => f32_1_5) (fun _ _ => f32_1_5).

(** * Properties *)

(** ** Real-number facts *)

Section RealFacts.
Local Open Scope R_scope.

Lemma cosh_pos (x : R) : 0 < cosh x.
Proof.
  unfold cosh. pose proof (exp_pos x). pose proof (exp_pos (- x)). lra.
Qed.

Lemma tanh_bounds (x : R) : -1 < tanh x < 1.
Proof.
  unfold tanh.
  pose proof (cosh_pos x) as Hc.
  assert (Hlo : - cosh x < sinh x).
  { unfold cosh, sinh. pose proof (exp_pos x). lra. }
  assert (Hhi : sinh x < cosh x).
  { unfold cosh, sinh. pose proof (exp_pos (- x)). lra. }
  split.
  - apply Rmult_lt_reg_r with (cosh x); [exact Hc|].
    unfold Rdiv. rewrite Rmult_assoc, Rinv_l by lra. lra.
  - apply Rmult_lt_reg_r with (cosh x); [exact Hc|].
    unfold Rdiv. rewrite Rmult_assoc, Rinv_l by lra. lra.
Qed.

Lemma Rclamp_le_hi (x lo hi : R) : Rclamp x lo hi <= hi.
Proof. unfold Rclamp. apply Rmin_r. Qed.

Lemma Rclamp_ge_lo (x lo hi : R) : lo <= hi -> lo <= Rclamp x lo hi.
Proof.
  intros Hle. unfold Rclamp. apply Rmin_glb; [apply Rmax_r | exact Hle].
Qed.

Lemma Rclamp_id (x lo hi : R) : lo <= x <= hi -> Rclamp x lo hi = x.
Proof.
  intros [H1 H2]. unfold Rclamp.
  rewrite Rmax_left by exact H1. apply Rmin_left. exact H2.
Qed.

(** The library's formula for the log-density is the logarithm of the
    Gaussian density. *)
Lemma gaussian_log_prob_formula (mu sigma x : R) :
  0 < sigma ->
  - (x - mu) ^ 2 / (2 * sigma ^ 2) - ln sigma - ln (sqrt (2 * PI))
  = gaussian_log_prob mu sigma x.
Proof.
  intros Hs. unfold gaussian_log_prob, gaussian_pdf.
  assert (Hpi : 0 < sqrt (2 * PI)).
  { apply sqrt_lt_R0. pose proof PI_RGT_0. lra. }
  rewrite ln_mult; [| apply Rinv_0_lt_compat, Rmult_lt_0_compat; assumption
                    | apply exp_pos].
  rewrite ln_exp, ln_Rinv by (apply Rmult_lt_0_compat; assumption).
  rewrite ln_mult by assumption.
  unfold Rdiv. lra.
Qed.



End RealFacts.

(** ** Broadcasting *)

Lemma Forall2_lt_rev (idx s : list nat) :
  Forall2 lt idx s -> Forall2 lt (rev idx) (rev s).
Proof.
  induction 1 as [|i d idx s Hlt Hrest IH]; simpl.
  - constructor.
  - apply Forall2_app; [exact IH | repeat constructor; exact Hlt].
Qed.

Lemma bidx_rev_valid (s idx : list nat) :
  Forall2 lt idx s -> bidx_rev s idx = idx.
Proof.
  induction 1 as [|i d idx s Hlt Hrest IH]; simpl; [reflexivity|].
  rewrite IH. destruct (Nat.eqb_spec d 1) as [->|Hne]; [|reflexivity].
  f_equal. lia.
Qed.

Lemma bidx_valid (s idx : list nat) : valid_index s idx -> bidx s idx = idx.
Proof.
  intros Hv. unfold bidx.
  rewrite bidx_rev_valid by (apply Forall2_lt_rev; exact Hv).
  apply rev_involutive.
Qed.

Lemma bget_valid (t : tensor) (idx : list nat) :
  valid_index (shape t) idx -> bget t idx = data t idx.
Proof. intros Hv. unfold bget. rewrite bidx_valid by exact Hv. reflexivity. Qed.

Lemma bidx_nil (idx : list nat) : bidx [] idx = [].
Proof. reflexivity. Qed.

Lemma broadcast_rev_refl (s : list nat) : broadcast_rev s s = Some s.
Proof.
  induction s as [|a s IH]; simpl; [reflexivity|].
  rewrite IH, Nat.eqb_refl. reflexivity.
Qed.

Lemma broadcast_shapes_refl (s : list nat) : broadcast_shapes s s = Some s.
Proof.
  unfold broadcast_shapes. rewrite broadcast_rev_refl. simpl.
  rewrite rev_involutive. reflexivity.
Qed.

(** Reading an operand through the broadcast result and then through its
    own shape is reading it directly. *)
Lemma bidx_rev_compose_l (s t r idx : list nat) :
  broadcast_rev s t = Some r -> bidx_rev s (bidx_rev r idx) = bidx_rev s idx.
Proof.
  revert t r idx.
  induction s as [|a s IH]; intros t r idx Hb; [reflexivity|].
  destruct t as [|b t]; simpl in Hb.
  - injection Hb as <-. destruct idx as [|i idx]; simpl; [reflexivity|].
    f_equal.
    + destruct (Nat.eqb_spec a 1); reflexivity.
    + clear IH. revert idx. induction s as [|d s IHs]; intros [|j idx]; simpl;
        try reflexivity.
      f_equal; [destruct (Nat.eqb_spec d 1); reflexivity | apply IHs].
  - destruct (broadcast_rev s t) as [r'|] eqn:Hr; [|discriminate].
    specialize (IH t r').
    destruct idx as [|i idx].
    + destruct r; reflexivity.
    + destruct (Nat.eqb_spec a b) as [->|Hab].
      * injection Hb as <-. simpl. rewrite IH by exact Hr.
        destruct (Nat.eqb_spec b 1); reflexivity.
      * destruct (Nat.eqb_spec a 1) as [->|Ha1].
        -- injection Hb as <-. simpl. rewrite IH by exact Hr. reflexivity.
        -- destruct (Nat.eqb_spec b 1) as [->|Hb1]; [|discriminate].
           injection Hb as <-. simpl. rewrite IH by exact Hr.
           destruct (Nat.eqb_spec a 1); [contradiction|reflexivity].
Qed.

Lemma broadcast_rev_comm (s t : list nat) :
  broadcast_rev s t = broadcast_rev t s.
Proof.
  revert t. induction s as [|a s IH]; intros [|b t]; simpl; try reflexivity.
  rewrite IH. destruct (broadcast_rev t s); [|reflexivity].
  destruct (Nat.eqb_spec a b) as [->|Hab].
  - rewrite Nat.eqb_refl. reflexivity.
  - destruct (Nat.eqb_spec b a) as [->|_]; [contradiction|].
    destruct (Nat.eqb_spec a 1) as [->|Ha]; destruct (Nat.eqb_spec b 1) as [->|Hb];
      first [reflexivity | contradiction].
Qed.

Lemma broadcast_shapes_comm (s t : list nat) :
  broadcast_shapes s t = broadcast_shapes t s.
Proof. unfold broadcast_shapes. rewrite broadcast_rev_comm. reflexivity. Qed.

Lemma bidx_compose_l (s t r idx : list nat) :
  broadcast_shapes s t = Some r -> bidx s (bidx r idx) = bidx s idx.
Proof.
  unfold broadcast_shapes, bidx. intros Hb.
  destruct (broadcast_rev (rev s) (rev t)) as [r'|] eqn:Hr; [|discriminate].
  injection Hb as <-. rewrite !rev_involutive.
  rewrite (bidx_rev_compose_l _ _ _ _ Hr). reflexivity.
Qed.

Lemma bidx_compose_r (s t r idx : list nat) :
  broadcast_shapes s t = Some r -> bidx t (bidx r idx) = bidx t idx.
Proof.
  rewrite broadcast_shapes_comm. apply bidx_compose_l.
Qed.

Lemma bidx_idem (s idx : list nat) : bidx s (bidx s idx) = bidx s idx.
Proof. apply (bidx_compose_l s s s). apply broadcast_shapes_refl. Qed.

(** ** Elementwise operations *)

(** Splits a hypothesis [e >>= k = Some r] of the error monad. *)
Ltac bind_inv H :=
  repeat match type of H with
  | mbind _ ?e = Some _ =>
      let x := fresh "x" in
      let E := fresh "E" in
      destruct e as [x|] eqn:E; simpl in H; [|discriminate H]
  | (let '(_, _) := ?p in _) = Some _ => destruct p
  end.

Lemma map2_t_inv (f : R -> R -> R) (x y r : tensor) :
  map2_t f x y = Some r ->
  broadcast_shapes (shape x) (shape y) = Some (shape r)
  /\ (forall idx, data r idx = f (bget x idx) (bget y idx))
  /\ requires_grad r = requires_grad x || requires_grad y.
Proof.
  unfold map2_t. destruct (broadcast_shapes (shape x) (shape y)) as [s|];
    [|discriminate].
  intros [= <-]. simpl. auto.
Qed.

Lemma bget_map2_t (f : R -> R -> R) (x y r : tensor) (idx : list nat) :
  map2_t f x y = Some r -> bget r idx = f (bget x idx) (bget y idx).
Proof.
  intros Hr. destruct (map2_t_inv _ _ _ _ Hr) as (Hs & Hd & _).
  unfold bget at 1. rewrite Hd. unfold bget.
  rewrite (bidx_compose_l _ _ _ _ Hs), (bidx_compose_r _ _ _ _ Hs).
  reflexivity.
Qed.

Lemma bget_map_t (f : R -> R) (x : tensor) (idx : list nat) :
  bget (map_t f x) idx = f (bget x idx).
Proof. reflexivity. Qed.

Lemma map2_t_same_shape (f : R -> R -> R) (x y : tensor) :
  shape x = shape y ->
  exists r, map2_t f x y = Some r /\ shape r = shape x.
Proof.
  intros Hs. unfold map2_t. rewrite <- Hs, broadcast_shapes_refl.
  eexists. split; reflexivity.
Qed.

Lemma clamp_inv (x lo hi r : tensor) :
  clamp x lo hi = Some r ->
  (forall idx, data r idx = Rclamp (bget x idx) (bget lo idx) (bget hi idx))
  /\ requires_grad r = requires_grad x || requires_grad lo || requires_grad hi.
Proof.
  unfold clamp. intros H. bind_inv H.
  destruct (map2_t_inv _ _ _ _ H) as (_ & Hd & Hg).
  destruct (map2_t_inv _ _ _ _ E) as (_ & _ & Hg0).
  split.
  - intros idx. rewrite Hd, (bget_map2_t _ _ _ _ idx E). reflexivity.
  - rewrite Hg, Hg0. reflexivity.
Qed.

Lemma bget_clamp (x lo hi r : tensor) (idx : list nat) :
  clamp x lo hi = Some r ->
  bget r idx = Rclamp (bget x idx) (bget lo idx) (bget hi idx).
Proof.
  unfold clamp. intros H. bind_inv H.
  rewrite (bget_map2_t _ _ _ _ idx H), (bget_map2_t _ _ _ _ idx E).
  reflexivity.
Qed.

(** ** [ActorNet.forward] *)

(** What [forward] returns, entry by entry: [m] and [l] are the outputs of
    the two linear heads. *)
Lemma ActorNet_forward_inv (net : ActorNet.t) (state mean std : tensor) :
  ActorNet.forward net state = Some (mean, std) ->
  exists x m l,
    nn.forward (ActorNet.mean net) x = Some m
    /\ nn.forward (ActorNet.log_std net) x = Some l
    /\ broadcast_shapes (shape (ActorNet.max_action net)) (shape m) = Some (shape mean)
    /\ shape std = shape l
    /\ (forall idx, data mean idx
                    = (bget (ActorNet.max_action net) idx * tanh (bget m idx))%R)
    /\ (forall idx, data std idx = exp (Rclamp (data l idx) (-20) 2)).
Proof.
  unfold ActorNet.forward. intros H. bind_inv H.
  injection H as <- <-.
  destruct (map2_t_inv _ _ _ _ E2) as (Hs & Hd & _).
  exists (nn.relu x0), x1, x3. repeat split; try assumption.
Qed.

(** ** Shapes of the layers *)

(** A layer succeeds exactly when its output shape is defined, and then
    returns a tensor of that shape. *)
Lemma forward_out_shape (l : nn.layer R) (x : tensor) :
  option_map shape (nn.forward l x) = nn.out_shape l (shape x).
Proof.
  destruct l as [c| | |l]; simpl.
  - unfold nn.conv2d_forward, nn.conv2d_out_shape.
    destruct (shape x) as [|B [|C [|H [|W [|? ?]]]]]; try reflexivity.
    destruct (_ && _); reflexivity.
  - reflexivity.
  - unfold nn.flatten, nn.flatten_out_shape.
    destruct (shape x) as [|B [|d rest]]; reflexivity.
  - unfold nn.linear_forward, nn.linear_out_shape.
    destruct (rev (shape x)) as [|n rpre]; [reflexivity|].
    destruct (n =? nn.in_features l); reflexivity.
Qed.

Lemma seq_forward_out_shape (m : nn.Sequential R) (x : tensor) :
  option_map shape (nn.seq_forward m x) = nn.seq_out_shape m (shape x).
Proof.
  revert x. induction m as [|l m IH]; intros x; simpl; [reflexivity|].
  pose proof (forward_out_shape l x) as Hl.
  destruct (nn.forward l x) as [y|]; simpl in *; rewrite <- Hl; simpl.
  - apply IH.
  - reflexivity.
Qed.

Lemma forward_total (l : nn.layer R) (x : tensor) (s : list nat) :
  nn.out_shape l (shape x) = Some s ->
  exists y, nn.forward l x = Some y /\ shape y = s.
Proof.
  intros Hs. pose proof (forward_out_shape l x) as Hl. rewrite Hs in Hl.
  destruct (nn.forward l x) as [y|]; [|discriminate].
  exists y. split; [reflexivity|]. simpl in Hl. congruence.
Qed.

Lemma seq_forward_total (m : nn.Sequential R) (x : tensor) (s : list nat) :
  nn.seq_out_shape m (shape x) = Some s ->
  exists y, nn.seq_forward m x = Some y /\ shape y = s.
Proof.
  intros Hs. pose proof (seq_forward_out_shape m x) as Hl. rewrite Hs in Hl.
  destruct (nn.seq_forward m x) as [y|]; [|discriminate].
  exists y. split; [reflexivity|]. simpl in Hl. congruence.
Qed.

Lemma ActorNet_forward_shape_ok (net : ActorNet.t) (state : tensor) :
  option_map (fun '(mean, std) => (shape mean, shape std))
    (ActorNet.forward net state)
  = ActorNet_forward_shape net (shape state).
Proof.
  unfold ActorNet.forward, ActorNet_forward_shape.
  rewrite <- seq_forward_out_shape.
  destruct (nn.seq_forward _ state) as [x|]; simpl; [|reflexivity].
  rewrite <- forward_out_shape.
  destruct (nn.forward (ActorNet.fc net) x) as [x'|]; simpl; [|reflexivity].
  change (shape x') with (shape (nn.relu x')).
  rewrite <- !forward_out_shape.
  destruct (nn.forward (ActorNet.mean net) _) as [m|]; simpl; [|reflexivity].
  unfold map2_t. simpl.
  destruct (broadcast_shapes _ (shape m)) as [sm|]; simpl; [|reflexivity].
  destruct (nn.forward (ActorNet.log_std net) _) as [l|]; reflexivity.
Qed.

Lemma ActorNet_forward_total (net : ActorNet.t) (state : tensor)
    (smean sstd : list nat) :
  ActorNet_forward_shape net (shape state) = Some (smean, sstd) ->
  exists mean std,
    ActorNet.forward net state = Some (mean, std)
    /\ shape mean = smean /\ shape std = sstd.
Proof.
  intros Hs. pose proof (ActorNet_forward_shape_ok net state) as Hok.
  rewrite Hs in Hok.
  destruct (ActorNet.forward net state) as [[mean std]|]; [|discriminate].
  exists mean, std. simpl in Hok. injection Hok as <- <-. auto.
Qed.

Lemma ActorNet_forward_error (net : ActorNet.t) (state : tensor) :
  ActorNet_forward_shape net (shape state) = None ->
  ActorNet.forward net state = None.
Proof.
  intros Hs. pose proof (ActorNet_forward_shape_ok net state) as Hok.
  rewrite Hs in Hok.
  destruct (ActorNet.forward net state) as [[mean std]|]; [discriminate|reflexivity].
Qed.

(** The constructor of [ActorNet] succeeds on the default arguments used by
    [Actor]: the dry run finds 3136 features, and both heads have five
    outputs whatever the bound vector is. *)
Lemma ActorNet_init_default (max_action : tensor) (init : string -> list nat -> R) :
  exists net,
    ActorNet.__init__ max_action (1, 84, 84) 5 init = Some net
    /\ ActorNet.max_action net = max_action
    /\ ActorNet.flattened_size net = 3136
    /\ forall B, ActorNet_forward_shape net [B; 1; 84; 84]
                 = default_forward_shape (shape max_action) B.
Proof.
  eexists. split; [vm_compute; reflexivity|].
  split; [reflexivity|]. split; [reflexivity|].
  intros B. unfold ActorNet_forward_shape, default_forward_shape.
  cbn [ActorNet.conv_layers ActorNet.fc ActorNet.mean ActorNet.log_std
       ActorNet.max_action].
  replace (nn.seq_out_shape _ [B; 1; 84; 84]) with (Some [B; 3136])
    by (vm_compute; reflexivity).
  reflexivity.
Qed.

Lemma Actor_init_default (device : string) (actor_lr : R)
    (min_action max_action : tensor) (init : string -> list nat -> R) :
  exists a,
    Actor.__init__ device actor_lr min_action max_action init = Some a
    /\ Actor.min_action a = min_action
    /\ Actor.max_action a = max_action
    /\ ActorNet.max_action (Actor.actor_net a) = max_action
    /\ forall B, ActorNet_forward_shape (Actor.actor_net a) [B; 1; 84; 84]
                 = default_forward_shape (shape max_action) B.
Proof.
  destruct (ActorNet_init_default max_action init) as (net & Hn & Hm & _ & Hs).
  unfold Actor.__init__. rewrite Hn. simpl.
  eexists. split; [reflexivity|]. simpl. auto.
Qed.



(** Without any assumption on the bound vector, the mean is bounded by its
    absolute value. *)
Lemma ActorNet_mean_abs (net : ActorNet.t) (state mean std : tensor) :
  ActorNet.forward net state = Some (mean, std) ->
  forall idx, (Rabs (data mean idx) <= Rabs (bget (ActorNet.max_action net) idx))%R.
Proof.
  intros H idx.
  destruct (ActorNet_forward_inv _ _ _ _ H) as (x & m & l & _ & _ & _ & _ & Hmean & _).
  rewrite Hmean, Rabs_mult.
  pose proof (tanh_bounds (bget m idx)) as [Hlo Hhi].
  assert (Ht : (Rabs (tanh (bget m idx)) <= 1)%R).
  { apply Rabs_le. lra. }
  pose proof (Rabs_pos (bget (ActorNet.max_action net) idx)).
  nra.
Qed.

(** C6.  Whenever [ActorNet.forward] returns, every entry of [mean] lies
    between minus the bound and the bound at that entry, the bound being
    non-negative so that the interval is well formed. *)
Theorem ActorNet_mean_bounds (net : ActorNet.t) (state mean std : tensor) :
  ActorNet.forward net state = Some (mean, std) ->
  (forall i, 0 <= data (ActorNet.max_action net) i)%R ->
  forall idx,
    (- bget (ActorNet.max_action net) idx <= data mean idx
     <= bget (ActorNet.max_action net) idx)%R.
Proof.
  intros H Hpos idx.
  pose proof (ActorNet_mean_abs _ _ _ _ H idx) as Habs.
  rewrite (Rabs_pos_eq (bget _ idx)) in Habs by apply Hpos.
  unfold Rabs in Habs. destruct (Rcase_abs (data mean idx)); lra.
Qed.


Lemma ones5_nonneg (i : list nat) : (0 <= data ones5 i)%R.
Proof.
  simpl. destruct i as [|i [|? ?]]; try lra.
  do 5 (destruct i as [|i]; [simpl; lra|]). destruct i; simpl; lra.
Qed.

Lemma ActorNet_mean_bounds_witness :
  exists net mean std,
    ActorNet.__init__ ones5 (1, 84, 84) 5 init0 = Some net
    /\ ActorNet.forward net obs0 = Some (mean, std)
    /\ (forall i, 0 <= data (ActorNet.max_action net) i)%R
    /\ forall idx,
        (- bget (ActorNet.max_action net) idx <= data mean idx
         <= bget (ActorNet.max_action net) idx)%R.
Proof.
  destruct (ActorNet_init_default ones5 init0) as (net & Hn & Hm & _ & Hs).
  destruct (ActorNet_forward_total net obs0 [1; 5] [1; 5]) as (mean & std & Hf & _).
  { simpl. rewrite Hs. reflexivity. }
  assert (Hpos : forall i, (0 <= data (ActorNet.max_action net) i)%R).
  { rewrite Hm. exact ones5_nonneg. }
  exists net, mean, std. split; [exact Hn|]. split; [exact Hf|].
  split; [exact Hpos|].
  exact (ActorNet_mean_bounds net obs0 mean std Hf Hpos).
Defined.

(** ** [Actor.choose_action] *)

Lemma numpy_detach (x : tensor) :
  numpy (cpu (detach x)) = Some (mkArr (shape x) (data x)).
Proof. reflexivity. Qed.

Lemma choose_action_inv (a : Actor.t) (state : tensor) (eps : list nat -> R)
    (arr : ndarray R) :
  Actor.choose_action a state eps = Some arr ->
  exists mean std dist action,
    ActorNet.forward (Actor.actor_net a) state = Some (mean, std)
    /\ Normal.make mean std = Some dist
    /\ clamp (Normal.sample dist eps) (Actor.min_action a) (Actor.max_action a)
       = Some action
    /\ numpy (detach action) = Some arr.
Proof.
  unfold Actor.choose_action. intros H.
  destruct (ActorNet.forward _ state) as [[mean std]|] eqn:Hf; simpl in H;
    [|discriminate].
  bind_inv H.
  exists mean, std, x, x0. auto.
Qed.

(** Every entry of the returned array is a clamped sample. *)
Lemma choose_action_entry (a : Actor.t) (state : tensor)
    (eps : list nat -> R) (arr : ndarray R) :
  Actor.choose_action a state eps = Some arr ->
  forall idx, exists x,
    ndata arr idx
    = Rclamp x (bget (Actor.min_action a) idx) (bget (Actor.max_action a) idx).
Proof.
  intros H idx.
  destruct (choose_action_inv _ _ _ _ H)
    as (mean & std & dist & action & _ & _ & Hc & Hn).
  injection Hn as <-. simpl.
  destruct (clamp_inv _ _ _ _ Hc) as [Hd _]. rewrite Hd. eexists. reflexivity.
Qed.

(** C2.  Whatever the noise [eps], the array returned by [choose_action]
    lies entry by entry between [min_action] and [max_action] (the lower
    bound being below the upper one, so that the interval is well formed),
    and it is the array of a tensor that does not require grad. *)
Theorem choose_action_bounds (a : Actor.t) (state : tensor)
    (eps : list nat -> R) (arr : ndarray R) :
  Actor.choose_action a state eps = Some arr ->
  (forall idx, bget (Actor.min_action a) idx <= bget (Actor.max_action a) idx)%R ->
  (exists t, requires_grad t = false /\ numpy t = Some arr)
  /\ forall idx,
      (bget (Actor.min_action a) idx <= ndata arr idx
       <= bget (Actor.max_action a) idx)%R.
Proof.
  intros H Hle.
  destruct (choose_action_inv _ _ _ _ H)
    as (mean & std & dist & action & _ & _ & Hc & Hn).
  split.
  - exists (detach action). split; [reflexivity | exact Hn].
  - intros idx. destruct (choose_action_entry _ _ _ _ H idx) as [x ->].
    split; [apply Rclamp_ge_lo, Hle | apply Rclamp_le_hi].
Qed.

(** [choose_action] returns as soon as the forward pass does and the
    bounds broadcast against the sample; [numpy()] never refuses, even
    when a bound requires grad. *)
Lemma choose_action_total (a : Actor.t) (state : tensor) (eps : list nat -> R)
    (s s1 s2 : list nat) :
  ActorNet_forward_shape (Actor.actor_net a) (shape state) = Some (s, s) ->
  broadcast_shapes s (shape (Actor.min_action a)) = Some s1 ->
  broadcast_shapes s1 (shape (Actor.max_action a)) = Some s2 ->
  exists arr, Actor.choose_action a state eps = Some arr /\ nshape arr = s2.
Proof.
  intros Hf H1 H2.
  destruct (ActorNet_forward_total _ _ _ _ Hf) as (mean & std & Hfw & Hm & Hs).
  unfold Actor.choose_action. rewrite Hfw. simpl.
  unfold Normal.make. rewrite Hm, Hs, broadcast_shapes_refl. simpl.
  unfold clamp, map2_t. simpl. rewrite H1. simpl. rewrite H2. simpl.
  eexists. split; reflexivity.
Qed.

Lemma ones5_bounds (idx : list nat) : (bget neg_ones5 idx <= bget ones5 idx)%R.
Proof.
  unfold bget. simpl shape.
  destruct (bidx [5] idx) as [|i [|? ?]]; simpl; try lra.
  do 5 (destruct i as [|i]; [lra|]). destruct i; lra.
Qed.

Lemma choose_action_bounds_witness :
  exists a arr,
    Actor.__init__ "cpu" (1 / 10) neg_ones5 ones5 init0 = Some a
    /\ Actor.choose_action a obs0 eps0 = Some arr
    /\ (forall idx, bget (Actor.min_action a) idx <= bget (Actor.max_action a) idx)%R
    /\ (exists t, requires_grad t = false /\ numpy t = Some arr)
    /\ forall idx,
        (bget (Actor.min_action a) idx <= ndata arr idx
         <= bget (Actor.max_action a) idx)%R.
Proof.
  destruct (Actor_init_default "cpu" (1 / 10) neg_ones5 ones5 init0)
    as (a & Ha & Hmin & Hmax & _ & Hs).
  destruct (choose_action_total a obs0 eps0 [1; 5] [1; 5] [1; 5])
    as (arr & Harr & _).
  { simpl. rewrite Hs. reflexivity. }
  { rewrite Hmin. reflexivity. }
  { rewrite Hmax. reflexivity. }
  assert (Hle : forall idx,
             (bget (Actor.min_action a) idx <= bget (Actor.max_action a) idx)%R).
  { rewrite Hmin, Hmax. exact ones5_bounds. }
  exists a, arr. split; [exact Ha|]. split; [exact Harr|]. split; [exact Hle|].
  exact (choose_action_bounds a obs0 eps0 arr Harr Hle).
Defined.

(** With two-element bounds the constructor succeeds, and the forward pass
    then fails: the head has five outputs, which do not broadcast against
    a bound vector of length two. *)
Lemma choose_action_dim2_error (device : string) (actor_lr : R)
    (init : string -> list nat -> R) (eps : list nat -> R) (B : nat) :
  exists a,
    Actor.__init__ device actor_lr neg_ones2 ones2 init = Some a
    /\ Actor.choose_action a (zeros [B; 1; 84; 84]) eps = None.
Proof.
  destruct (Actor_init_default device actor_lr neg_ones2 ones2 init)
    as (a & Ha & _ & _ & _ & Hs).
  exists a. split; [exact Ha|].
  unfold Actor.choose_action.
  rewrite ActorNet_forward_error; [reflexivity|].
  simpl. rewrite Hs. reflexivity.
Qed.

(** C3, as stated, fails: with bounds [[-1,-1]] and [[1,1]] no array is
    returned for the zero observation batch. *)
Lemma choose_action_dim2_counterexample :
  is_Some (Actor.__init__ "cpu" (1 / 10) neg_ones2 ones2 init0)
  /\ (a ← Actor.__init__ "cpu" (1 / 10) neg_ones2 ones2 init0;
      Actor.choose_action a obs0 eps0) = None.
Proof.
  destruct (choose_action_dim2_error "cpu" (1 / 10) init0 eps0 1) as (a & Ha & Hc).
  rewrite Ha. split; [eexists; reflexivity | exact Hc].
Qed.

Lemma ones5_range (idx : list nat) :
  (-1 <= bget neg_ones5 idx /\ bget ones5 idx <= 1)%R.
Proof.
  unfold bget. simpl shape.
  destruct (bidx [5] idx) as [|i [|? ?]]; simpl; try lra.
  do 5 (destruct i as [|i]; [lra|]). destruct i; lra.
Qed.

(** C3, amended.  [Actor] takes no [action_dim]: its network always has
    five outputs.  With five-element bounds [-1] and [1], whatever the
    initial weights and the noise, [choose_action] on the zero observation
    batch of shape (1,1,84,84) returns an array of shape (1,5) with every
    value in [[-1,1]]. *)
Theorem choose_action_default_dim (device : string) (actor_lr : R)
    (init : string -> list nat -> R) (eps : list nat -> R) :
  exists a arr,
    Actor.__init__ device actor_lr neg_ones5 ones5 init = Some a
    /\ Actor.choose_action a obs0 eps = Some arr
    /\ nshape arr = [1; 5]
    /\ forall idx, (-1 <= ndata arr idx <= 1)%R.
Proof.
  destruct (Actor_init_default device actor_lr neg_ones5 ones5 init)
    as (a & Ha & Hmin & Hmax & _ & Hs).
  destruct (choose_action_total a obs0 eps [1; 5] [1; 5] [1; 5])
    as (arr & Harr & Hshape).
  { simpl. rewrite Hs. reflexivity. }
  { rewrite Hmin. reflexivity. }
  { rewrite Hmax. reflexivity. }
  exists a, arr. split; [exact Ha|]. split; [exact Harr|]. split; [exact Hshape|].
  intros idx.
  destruct (choose_action_entry _ _ _ _ Harr idx) as [x ->].
  rewrite Hmin, Hmax.
  pose proof (ones5_bounds idx) as Hle. pose proof (ones5_range idx) as Hr.
  pose proof (Rclamp_ge_lo x _ _ Hle). pose proof (Rclamp_le_hi x (bget neg_ones5 idx) (bget ones5 idx)).
  lra.
Qed.

(** ** [Actor.evaluate] *)

Lemma broadcast_shapes_nil_r (s : list nat) : broadcast_shapes s [] = Some s.
Proof.
  unfold broadcast_shapes. simpl.
  rewrite <- (rev_involutive s) at 2.
  destruct (rev s); reflexivity.
Qed.

Lemma Normal_make_inv (loc scale : tensor) (d : Normal.t) :
  Normal.make loc scale = Some d ->
  (forall idx, bget (Normal.loc d) idx = bget loc idx)
  /\ (forall idx, bget (Normal.scale d) idx = bget scale idx).
Proof.
  unfold Normal.make. intros H. bind_inv H. injection H as <-.
  split; intros idx; unfold bget; simpl; unfold bget.
  - rewrite (bidx_compose_l _ _ _ _ E). reflexivity.
  - rewrite (bidx_compose_r _ _ _ _ E). reflexivity.
Qed.

Lemma Normal_log_prob_inv (d : Normal.t) (value lp : tensor) (idx : list nat) :
  Normal.log_prob d value = Some lp ->
  bget lp idx
  = (- (bget value idx - bget (Normal.loc d) idx) ^ 2
       / (2 * bget (Normal.scale d) idx ^ 2)
     - ln (bget (Normal.scale d) idx) - ln (sqrt (2 * PI)))%R.
Proof.
  unfold Normal.log_prob. intros H. bind_inv H. injection H as <-.
  rewrite bget_map_t, (bget_map2_t _ _ _ _ idx E1), (bget_map2_t _ _ _ _ idx E0).
  rewrite !bget_map_t, (bget_map2_t _ _ _ _ idx E).
  reflexivity.
Qed.

Lemma ActorNet_std_pos (net : ActorNet.t) (state mean std : tensor) :
  ActorNet.forward net state = Some (mean, std) ->
  forall idx, (0 < data std idx)%R.
Proof.
  intros H idx.
  destruct (ActorNet_forward_inv _ _ _ _ H) as (x & m & l & _ & _ & _ & _ & _ & Hstd).
  rewrite Hstd. apply exp_pos.
Qed.

(** The standard-normal noise of [evaluate] is a 0-dimensional tensor
    holding the single draw. *)
Lemma noise_sample (eps : list nat -> R) (noise : Normal.t) :
  Normal.make (scalar_tensor 0) (scalar_tensor 1) = Some noise ->
  shape (Normal.sample noise eps) = []
  /\ data (Normal.sample noise eps) [] = eps []
  /\ forall idx, bget (Normal.sample noise eps) idx = eps [].
Proof.
  intros H. unfold Normal.make in H. simpl in H. injection H as <-.
  split; [reflexivity|].
  split; [simpl; unfold bget; simpl; lra|].
  intros idx. unfold bget. simpl shape. rewrite bidx_nil.
  simpl. unfold bget. simpl. lra.
Qed.

(** What [evaluate] returns, entry by entry. *)
Lemma evaluate_inv (a : Actor.t) (state : tensor) (eps : list nat -> R)
    (action lp z mean std : tensor) :
  Actor.evaluate a state eps = Some (action, lp, z, mean, std) ->
  ActorNet.forward (Actor.actor_net a) state = Some (mean, std)
  /\ shape z = []
  /\ data z [] = eps []
  /\ (forall idx, bget z idx = data z [])
  /\ (forall idx,
        data action idx
        = Rclamp (tanh (bget mean idx + bget std idx * bget z idx))
            (bget (Actor.min_action a) idx) (bget (Actor.max_action a) idx))
  /\ (forall idx,
        data lp idx
        = (- ((bget mean idx + bget std idx * bget z idx) - bget mean idx) ^ 2
             / (2 * bget std idx ^ 2)
           - ln (bget std idx) - ln (sqrt (2 * PI))
           - ln (1 - bget action idx ^ 2 + 1 / 1000000))%R).
Proof.
  unfold Actor.evaluate. intros H.
  destruct (ActorNet.forward _ state) as [[mean' std']|] eqn:Hf; simpl in H;
    [|discriminate].
  bind_inv H. injection H as <- <- <- <- <-.
  destruct (noise_sample eps
              (Normal.mk (Normal.expand (scalar_tensor 0) [])
                         (Normal.expand (scalar_tensor 1) [])) eq_refl)
    as (Hz1 & Hz2 & Hz3).
  destruct (Normal_make_inv _ _ _ E) as [Hloc Hscale].
  split; [reflexivity|]. split; [exact Hz1|]. split; [exact Hz2|].
  split; [intros idx; rewrite Hz3, Hz2; reflexivity|].
  split.
  - intros idx. destruct (clamp_inv _ _ _ _ E2) as [Hd _]. rewrite Hd.
    rewrite bget_map_t, (bget_map2_t _ _ _ _ idx E1), (bget_map2_t _ _ _ _ idx E0).
    reflexivity.
  - intros idx. destruct (map2_t_inv _ _ _ _ E4) as (_ & Hd & _). rewrite Hd.
    rewrite bget_map_t, (Normal_log_prob_inv _ _ _ idx E3), Hloc, Hscale.
    rewrite (bget_map2_t _ _ _ _ idx E1), (bget_map2_t _ _ _ _ idx E0).
    simpl. reflexivity.
Qed.

(** C4.  The returned action is the clamped [tanh] of the reparameterised
    sample [mean + std * z] for the returned [z], and the returned
    log-probability is the Gaussian log-density of that sample under
    [Normal(mean, std)] minus [log (1 - action^2 + 1e-6)], entry by
    entry. *)
Theorem evaluate_action_logprob (a : Actor.t) (state : tensor)
    (eps : list nat -> R) (action lp z mean std : tensor) :
  Actor.evaluate a state eps = Some (action, lp, z, mean, std) ->
  forall idx,
    data action idx
    = Rclamp (tanh (bget mean idx + bget std idx * bget z idx))
        (bget (Actor.min_action a) idx) (bget (Actor.max_action a) idx)
    /\ data lp idx
       = (gaussian_log_prob (bget mean idx) (bget std idx)
            (bget mean idx + bget std idx * bget z idx)
          - ln (1 - bget action idx ^ 2 + 1 / 1000000))%R.
Proof.
  intros H idx.
  destruct (evaluate_inv _ _ _ _ _ _ _ _ H) as (Hf & _ & _ & _ & Ha & Hl).
  split; [apply Ha|].
  rewrite Hl, gaussian_log_prob_formula; [reflexivity|].
  apply (ActorNet_std_pos _ _ _ _ Hf).
Qed.

(** C10.  The noise [z] of [evaluate] is a 0-dimensional tensor holding
    one standard-normal draw, and every entry of the action, over the
    batch and over the action dimensions, is computed from that one
    value. *)
Theorem evaluate_noise_scalar (a : Actor.t) (state : tensor)
    (eps : list nat -> R) (action lp z mean std : tensor) :
  Actor.evaluate a state eps = Some (action, lp, z, mean, std) ->
  shape z = []
  /\ data z [] = eps []
  /\ forall idx,
      data action idx
      = Rclamp (tanh (bget mean idx + bget std idx * data z []))
          (bget (Actor.min_action a) idx) (bget (Actor.max_action a) idx).
Proof.
  intros H.
  destruct (evaluate_inv _ _ _ _ _ _ _ _ H) as (_ & Hs & Hz & Hb & Ha & _).
  split; [exact Hs|]. split; [exact Hz|].
  intros idx. rewrite Ha, Hb. reflexivity.
Qed.

Lemma map2_t_total (f : R -> R -> R) (x y : tensor) (s : list nat) :
  broadcast_shapes (shape x) (shape y) = Some s ->
  exists r, map2_t f x y = Some r /\ shape r = s.
Proof.
  intros Hs. unfold map2_t. rewrite Hs. eexists. split; reflexivity.
Qed.

Lemma clamp_total (x lo hi : tensor) (s1 s2 : list nat) :
  broadcast_shapes (shape x) (shape lo) = Some s1 ->
  broadcast_shapes s1 (shape hi) = Some s2 ->
  exists r, clamp x lo hi = Some r /\ shape r = s2.
Proof.
  intros H1 H2. unfold clamp.
  destruct (map2_t_total Rmax x lo s1 H1) as (t & -> & Ht). cbn [mbind option_bind].
  apply map2_t_total. rewrite Ht. exact H2.
Qed.

Lemma Normal_make_total (loc scale : tensor) (s : list nat) :
  broadcast_shapes (shape loc) (shape scale) = Some s ->
  exists d, Normal.make loc scale = Some d
            /\ shape (Normal.loc d) = s /\ shape (Normal.scale d) = s.
Proof.
  intros H. unfold Normal.make. rewrite H. eexists. repeat split.
Qed.

Lemma Normal_log_prob_total (d : Normal.t) (value : tensor) (s : list nat) :
  shape (Normal.loc d) = s -> shape (Normal.scale d) = s -> shape value = s ->
  exists lp, Normal.log_prob d value = Some lp /\ shape lp = s.
Proof.
  intros Hl Hs Hv. unfold Normal.log_prob, map2_t. simpl.
  rewrite Hl, Hs, Hv, broadcast_shapes_refl. simpl.
  rewrite broadcast_shapes_refl. simpl. rewrite broadcast_shapes_refl. simpl.
  eexists. split; reflexivity.
Qed.

(** [evaluate] returns as soon as the forward pass does and the bounds
    broadcast against the action; the noise is 0-dimensional while [mean]
    and [std] keep the shape of the forward pass. *)
Lemma evaluate_total (a : Actor.t) (state : tensor) (eps : list nat -> R)
    (s s1 s2 s3 : list nat) :
  ActorNet_forward_shape (Actor.actor_net a) (shape state) = Some (s, s) ->
  broadcast_shapes s (shape (Actor.min_action a)) = Some s1 ->
  broadcast_shapes s1 (shape (Actor.max_action a)) = Some s2 ->
  broadcast_shapes s s2 = Some s3 ->
  exists action lp z mean std,
    Actor.evaluate a state eps = Some (action, lp, z, mean, std)
    /\ shape action = s2 /\ shape lp = s3 /\ shape mean = s /\ shape std = s.
Proof.
  intros Hf H1 H2 H3.
  destruct (ActorNet_forward_total _ _ _ _ Hf) as (mean & std & Hfw & Hm & Hs).
  destruct (Normal_make_total mean std s) as (dist & Hd & Hdl & Hds).
  { rewrite Hm, Hs. apply broadcast_shapes_refl. }
  destruct (Normal_make_total (scalar_tensor 0) (scalar_tensor 1) [] eq_refl)
    as (noise & Hn & Hnl & _).
  set (z := Normal.sample noise eps).
  destruct (map2_t_total Rmult std z s) as (sz & Hsz & Hszs).
  { rewrite Hs. unfold z. simpl. rewrite Hnl. apply broadcast_shapes_nil_r. }
  destruct (map2_t_total Rplus mean sz s) as (pre & Hpre & Hpres).
  { rewrite Hm, Hszs. apply broadcast_shapes_refl. }
  destruct (clamp_total (map_t tanh pre) (Actor.min_action a) (Actor.max_action a)
              s1 s2) as (action & Hact & Hacts).
  { simpl. rewrite Hpres. exact H1. }
  { exact H2. }
  destruct (Normal_log_prob_total dist pre s Hdl Hds Hpres) as (lp0 & Hlp0 & Hlp0s).
  destruct (map2_t_total Rminus lp0
              (map_t (fun a => ln (1 - a ^ 2 + 1 / 1000000))%R action) s3)
    as (lp & Hlp & Hlps).
  { simpl. rewrite Hlp0s, Hacts. exact H3. }
  exists action, lp, z, mean, std.
  split; [|auto].
  unfold Actor.evaluate. rewrite Hfw. cbn [mbind option_bind].
  rewrite Hd. cbn [mbind option_bind]. rewrite Hn. cbn [mbind option_bind].
  fold z. rewrite Hsz. cbn [mbind option_bind]. rewrite Hpre. cbn [mbind option_bind].
  rewrite Hact. cbn [mbind option_bind]. rewrite Hlp0. cbn [mbind option_bind].
  rewrite Hlp. reflexivity.
Qed.

Lemma evaluate_action_logprob_witness :
  exists a action lp z mean std,
    Actor.__init__ "cpu" (1 / 10) neg_ones5 ones5 init0 = Some a
    /\ Actor.evaluate a obs0 eps0 = Some (action, lp, z, mean, std)
    /\ forall idx,
        data action idx
        = Rclamp (tanh (bget mean idx + bget std idx * bget z idx))
            (bget (Actor.min_action a) idx) (bget (Actor.max_action a) idx)
        /\ data lp idx
           = (gaussian_log_prob (bget mean idx) (bget std idx)
                (bget mean idx + bget std idx * bget z idx)
              - ln (1 - bget action idx ^ 2 + 1 / 1000000))%R.
Proof.
  destruct (Actor_init_default "cpu" (1 / 10) neg_ones5 ones5 init0)
    as (a & Ha & Hmin & Hmax & _ & Hs).
  destruct (evaluate_total a obs0 eps0 [1; 5] [1; 5] [1; 5] [1; 5])
    as (action & lp & z & mean & std & He & _).
  { simpl. rewrite Hs. reflexivity. }
  { rewrite Hmin. reflexivity. }
  { rewrite Hmax. reflexivity. }
  { reflexivity. }
  exists a, action, lp, z, mean, std. split; [exact Ha|]. split; [exact He|].
  exact (evaluate_action_logprob a obs0 eps0 action lp z mean std He).
Defined.

(** The witness also shows the shapes: the noise has none while the mean
    has shape (1,5). *)
Lemma evaluate_noise_scalar_witness :
  exists a action lp z mean std,
    Actor.__init__ "cpu" (1 / 10) neg_ones5 ones5 init0 = Some a
    /\ Actor.evaluate a obs0 eps0 = Some (action, lp, z, mean, std)
    /\ shape mean = [1; 5]
    /\ shape z = []
    /\ data z [] = eps0 []
    /\ forall idx,
        data action idx
        = Rclamp (tanh (bget mean idx + bget std idx * data z []))
            (bget (Actor.min_action a) idx) (bget (Actor.max_action a) idx).
Proof.
  destruct (Actor_init_default "cpu" (1 / 10) neg_ones5 ones5 init0)
    as (a & Ha & Hmin & Hmax & _ & Hs).
  destruct (evaluate_total a obs0 eps0 [1; 5] [1; 5] [1; 5] [1; 5])
    as (action & lp & z & mean & std & He & _ & _ & Hm & _).
  { simpl. rewrite Hs. reflexivity. }
  { rewrite Hmin. reflexivity. }
  { rewrite Hmax. reflexivity. }
  { reflexivity. }
  exists a, action, lp, z, mean, std. split; [exact Ha|]. split; [exact He|].
  split; [exact Hm|].
  exact (evaluate_noise_scalar a obs0 eps0 action lp z mean std He).
Defined.

(** ** Parameters of a network and their in-place overwrite *)

Section Load.
Context {A : Type}.
Implicit Types (m : nn.Sequential A) (vs : list (ndarray A)).

Lemma layer_load_spec (l : nn.layer A) vs :
  length (nn.layer_parameters l) <= length vs ->
  nn.layer_parameters (nn.layer_load l vs).1
  = take (length (nn.layer_parameters l)) vs
  /\ (nn.layer_load l vs).2 = drop (length (nn.layer_parameters l)) vs.
Proof.
  destruct l as [c| | |l]; simpl; intros Hlen; try (split; reflexivity).
  - destruct vs as [|w [|b vs']]; simpl in *; try lia. split; reflexivity.
  - destruct vs as [|w [|b vs']]; simpl in *; try lia. split; reflexivity.
Qed.

Lemma seq_load_spec m vs :
  length (nn.seq_parameters m) <= length vs ->
  nn.seq_parameters (nn.seq_load m vs).1 = take (length (nn.seq_parameters m)) vs
  /\ (nn.seq_load m vs).2 = drop (length (nn.seq_parameters m)) vs.
Proof.
  revert vs. induction m as [|l m IH]; intros vs Hlen; simpl.
  - rewrite take_0, drop_0. split; reflexivity.
  - unfold nn.seq_parameters in Hlen. simpl in Hlen.
    rewrite length_app in Hlen.
    destruct (layer_load_spec l vs) as [Hl1 Hl2]; [lia|].
    destruct (nn.layer_load l vs) as [l' vs'] eqn:El. simpl in Hl1, Hl2.
    destruct (IH vs') as [Hm1 Hm2].
    { rewrite Hl2, length_drop.
      change (flat_map nn.layer_parameters m) with (nn.seq_parameters m) in Hlen.
      lia. }
    destruct (nn.seq_load m vs') as [m'' vs''] eqn:Em. simpl in Hm1, Hm2.
    simpl. unfold nn.seq_parameters in *. simpl.
    rewrite length_app, Hl1, Hm1, Hm2, Hl2.
    split; [apply take_take_drop | apply drop_drop].
Qed.

Lemma CriticNet_load_parameters (net : CriticNet.t A) vs :
  length vs = length (CriticNet.parameters net) ->
  CriticNet.parameters (CriticNet.load net vs) = vs.
Proof.
  unfold CriticNet.parameters, CriticNet.load. rewrite !length_app. intros Hlen.
  destruct (seq_load_spec (CriticNet.conv_layers_q1 net) vs) as [H1 H1']; [lia|].
  destruct (nn.seq_load (CriticNet.conv_layers_q1 net) vs) as [c1 vs1].
  simpl in H1, H1'.
  destruct (seq_load_spec (CriticNet.fc_q1 net) vs1) as [H2 H2'].
  { rewrite H1', length_drop. lia. }
  destruct (nn.seq_load (CriticNet.fc_q1 net) vs1) as [f1 vs2].
  simpl in H2, H2'.
  destruct (seq_load_spec (CriticNet.conv_layers_q2 net) vs2) as [H3 H3'].
  { rewrite H2', H1', !length_drop. lia. }
  destruct (nn.seq_load (CriticNet.conv_layers_q2 net) vs2) as [c2 vs3].
  simpl in H3, H3'.
  destruct (seq_load_spec (CriticNet.fc_q2 net) vs3) as [H4 H4'].
  { rewrite H3', H2', H1', !length_drop. lia. }
  destruct (nn.seq_load (CriticNet.fc_q2 net) vs3) as [f2 vs4].
  simpl in H4, H4'. simpl.
  rewrite H1, H2, H3, H4, H3', H2', H1'.
  rewrite !drop_drop, !app_assoc, !take_take_drop.
  apply take_ge. lia.
Qed.
End Load.

(** ** [Critic.update] *)

Section Polyak.
Context {S T : Type} `{Arith S T}.
Implicit Types (c : Critic.t S T) (tau : S).

Lemma update_param_inv tau (target_param param v : ndarray T) :
  Critic.update_param tau target_param param = Some v ->
  nshape v = nshape target_param
  /\ forall idx,
      ndata v idx
      = polyak tau (ndata target_param (bidx (nshape target_param) idx))
                   (ndata param (bidx (nshape param) idx)).
Proof.
  unfold Critic.update_param, amap2, copy_. simpl. intros Hv.
  destruct (broadcast_shapes (nshape target_param) (nshape param)) as [s|] eqn:Es;
    simpl in Hv; [|discriminate].
  destruct (broadcast_shapes s (nshape target_param)) as [s'|] eqn:Es';
    simpl in Hv; [|discriminate].
  destruct (decide (s' = nshape target_param)) as [->|]; [|discriminate].
  injection Hv as <-. simpl. split; [reflexivity|].
  intros idx.
  rewrite (bidx_compose_l _ _ _ _ Es), (bidx_compose_r _ _ _ _ Es).
  reflexivity.
Qed.

Lemma update_param_total tau (target_param param : ndarray T) :
  nshape target_param = nshape param ->
  is_Some (Critic.update_param tau target_param param).
Proof.
  intros Hs. unfold Critic.update_param, amap2, copy_. simpl.
  rewrite <- Hs, broadcast_shapes_refl. simpl.
  rewrite broadcast_shapes_refl. simpl.
  destruct (decide _) as [_|Hne]; [eexists; reflexivity | contradiction].
Qed.

Lemma update_loop_spec tau pairs vs :
  Critic.update_loop tau pairs = Some vs ->
  Forall2 (fun tp v => Critic.update_param tau tp.1 tp.2 = Some v) pairs vs.
Proof.
  revert vs. induction pairs as [|[t p] pairs IH]; simpl; intros vs Hvs.
  - injection Hvs as <-. constructor.
  - bind_inv Hvs. injection Hvs as <-. constructor; [exact E | apply IH; reflexivity].
Qed.

Lemma update_loop_total tau (pairs : list (ndarray T * ndarray T)) :
  Forall (fun tp => nshape tp.1 = nshape tp.2) pairs ->
  is_Some (Critic.update_loop tau pairs).
Proof.
  induction 1 as [|[t p] pairs Hs _ IH]; simpl; [eexists; reflexivity|].
  destruct (update_param_total tau t p Hs) as [v ->].
  destruct IH as [vs ->]. eexists. reflexivity.
Qed.

Lemma same_shapes_pairs c :
  same_shapes c ->
  length (CriticNet.parameters (Critic.target_net c))
  = length (CriticNet.parameters (Critic.critic_net c))
  /\ Forall (fun tp => nshape tp.1 = nshape tp.2)
       (zip (CriticNet.parameters (Critic.target_net c))
            (CriticNet.parameters (Critic.critic_net c))).
Proof.
  unfold same_shapes.
  generalize (CriticNet.parameters (Critic.target_net c)) as ts.
  generalize (CriticNet.parameters (Critic.critic_net c)) as ps.
  intros ps ts. revert ps.
  induction ts as [|t ts IH]; intros [|p ps] Hm; simpl in *; try discriminate.
  - split; [reflexivity | constructor].
  - injection Hm as Hhd Htl. destruct (IH ps Htl) as [Hlen Hall].
    split; [congruence | constructor; assumption].
Qed.

(** One call of [update]: it returns, it touches neither [tau] nor the
    online network, and the parameter at each position of the target
    network is what the loop body computes from the old target and the
    online parameter at the same position. *)
Lemma update_lookup c :
  same_shapes c ->
  exists c',
    Critic.update c = Some c'
    /\ Critic.tau c' = Critic.tau c
    /\ Critic.critic_net c' = Critic.critic_net c
    /\ length (CriticNet.parameters (Critic.target_net c'))
       = length (CriticNet.parameters (Critic.target_net c))
    /\ forall k old online,
        CriticNet.parameters (Critic.target_net c) !! k = Some old ->
        CriticNet.parameters (Critic.critic_net c) !! k = Some online ->
        nshape old = nshape online
        /\ exists new,
            CriticNet.parameters (Critic.target_net c') !! k = Some new
            /\ Critic.update_param (Critic.tau c) old online = Some new.
Proof.
  intros Hwf. destruct (same_shapes_pairs c Hwf) as [Hlen Hall].
  destruct (update_loop_total (Critic.tau c) _ Hall) as [vs Hvs].
  pose proof (update_loop_spec _ _ _ Hvs) as HF.
  assert (Hlvs : length vs = length (CriticNet.parameters (Critic.target_net c))).
  { assert (Hl := HF). apply Forall2_length in Hl.
    rewrite <- Hl, length_zip. lia. }
  unfold Critic.update. rewrite Hvs. simpl.
  eexists. split; [reflexivity|]. simpl.
  rewrite (CriticNet_load_parameters _ _ Hlvs).
  split; [reflexivity|]. split; [reflexivity|]. split; [exact Hlvs|].
  intros k old online Hold Honline.
  assert (Hz : zip (CriticNet.parameters (Critic.target_net c))
                   (CriticNet.parameters (Critic.critic_net c)) !! k
               = Some (old, online)).
  { rewrite lookup_zip_with, Hold. simpl. rewrite Honline. reflexivity. }
  split.
  - unfold same_shapes in Hwf.
    assert (Hk : map nshape (CriticNet.parameters (Critic.target_net c)) !! k
                 = Some (nshape old)) by (rewrite list_lookup_fmap, Hold; reflexivity).
    rewrite Hwf, list_lookup_fmap, Honline in Hk. simpl in Hk. congruence.
  - destruct (Forall2_lookup_l _ _ _ _ _ HF Hz) as (new & Hnew & Hup).
    exists new. split; [exact Hnew | exact Hup].
Qed.
End Polyak.

(** The constructor succeeds on its default architecture, whatever the
    initial values, and builds two networks of the same shapes. *)
Lemma Critic_init_total {S T : Type} `{Arith S T} (device : string)
    (critic_lr tau : S) (init_critic init_target : string -> list nat -> T) :
  exists c,
    Critic.__init__ device critic_lr tau init_critic init_target = Some c
    /\ Critic.tau c = tau
    /\ same_shapes c
    /\ length (CriticNet.parameters (Critic.target_net c)) = 24.
Proof.
  eexists. split; [vm_compute; reflexivity|].
  split; [reflexivity|]. split; reflexivity.
Qed.

(** Built twice from the same initial values, the two networks hold
    identical parameters. *)
Lemma Critic_init_identical {S T : Type} `{Arith S T} (device : string)
    (critic_lr tau : S) (init : string -> list nat -> T) :
  exists c,
    Critic.__init__ device critic_lr tau init init = Some c
    /\ Critic.tau c = tau
    /\ CriticNet.parameters (Critic.target_net c)
       = CriticNet.parameters (Critic.critic_net c).
Proof.
  eexists. split; [vm_compute; reflexivity|]. split; reflexivity.
Qed.

(** C1.  One call of [update] replaces every entry of every parameter of
    the target network by [(1 - tau) * old_target + tau * online], with
    [old_target] the entry before the call and [online] the entry of the
    online parameter at the same position of [parameters()]; shapes,
    [tau] and the online network are left as they were.  This holds in
    exact and in binary32 arithmetic alike. *)
Theorem update_polyak {S T : Type} `{Arith S T} (c : Critic.t S T) :
  same_shapes c ->
  exists c',
    Critic.update c = Some c'
    /\ Critic.tau c' = Critic.tau c
    /\ Critic.critic_net c' = Critic.critic_net c
    /\ length (CriticNet.parameters (Critic.target_net c'))
       = length (CriticNet.parameters (Critic.target_net c))
    /\ forall k old online,
        CriticNet.parameters (Critic.target_net c) !! k = Some old ->
        CriticNet.parameters (Critic.critic_net c) !! k = Some online ->
        exists new,
          CriticNet.parameters (Critic.target_net c') !! k = Some new
          /\ nshape new = nshape old
          /\ forall idx,
              valid_index (nshape old) idx ->
              ndata new idx
              = t_add (mul_scalar (ndata old idx) (one_minus (Critic.tau c)))
                      (mul_scalar (ndata online idx) (Critic.tau c)).
Proof.
  intros Hwf. destruct (update_lookup c Hwf) as (c' & Hu & Ht & Hn & Hl & Hk).
  exists c'. split; [exact Hu|]. split; [exact Ht|]. split; [exact Hn|].
  split; [exact Hl|].
  intros k old online Hold Honline.
  destruct (Hk k old online Hold Honline) as (Hso & new & Hnew & Hup).
  destruct (update_param_inv _ _ _ _ Hup) as [Hs Hd].
  exists new. split; [exact Hnew|]. split; [exact Hs|].
  intros idx Hv. rewrite Hd. unfold polyak.
  rewrite <- Hso, (bidx_valid _ _ Hv). reflexivity.
Qed.

Lemma update_polyak_witness :
  exists c,
    critic_1_5 = Some c
    /\ same_shapes c
    /\ exists c',
        Critic.update c = Some c'
        /\ Critic.tau c' = Critic.tau c
        /\ Critic.critic_net c' = Critic.critic_net c
        /\ length (CriticNet.parameters (Critic.target_net c'))
           = length (CriticNet.parameters (Critic.target_net c))
        /\ forall k old online,
            CriticNet.parameters (Critic.target_net c) !! k = Some old ->
            CriticNet.parameters (Critic.critic_net c) !! k = Some online ->
            exists new,
              CriticNet.parameters (Critic.target_net c') !! k = Some new
              /\ nshape new = nshape old
              /\ forall idx,
                  valid_index (nshape old) idx ->
                  ndata new idx
                  = t_add (mul_scalar (ndata old idx) (one_minus (Critic.tau c)))
                          (mul_scalar (ndata online idx) (Critic.tau c)).
Proof.
  destruct (Critic_init_total "cpu" lr_0_0003 tau_0_005
              (fun _ _ => f32_1_5) (fun _ _ => f32_1_5)) as (c & Hc & _ & Hwf & _).
  exists c. split; [exact Hc|]. split; [exact Hwf|].
  exact (update_polyak c Hwf).
Defined.

(** In exact arithmetic the formula reads as the claim writes it. *)
Lemma update_polyak_R (c : Critic.t R R) :
  same_shapes c ->
  exists c',
    Critic.update c = Some c'
    /\ forall k old online,
        CriticNet.parameters (Critic.target_net c) !! k = Some old ->
        CriticNet.parameters (Critic.critic_net c) !! k = Some online ->
        exists new,
          CriticNet.parameters (Critic.target_net c') !! k = Some new
          /\ forall idx,
              valid_index (nshape old) idx ->
              ndata new idx
              = ((1 - Critic.tau c) * ndata old idx
                 + Critic.tau c * ndata online idx)%R.
Proof.
  intros Hwf. destruct (update_lookup c Hwf) as (c' & Hu & _ & _ & _ & Hk).
  exists c'. split; [exact Hu|].
  intros k old online Ho Hn.
  destruct (Hk k old online Ho Hn) as (Hso & new & Hnew & Hup).
  destruct (update_param_inv _ _ _ _ Hup) as [_ Hd].
  exists new. split; [exact Hnew|].
  intros idx Hv. rewrite Hd. unfold polyak.
  rewrite <- Hso, (bidx_valid _ _ Hv). simpl. ring.
Qed.

(** C7, as stated, fails in the arithmetic of the parameters: with every
    entry of both networks equal to the binary32 value [1.5] and
    [tau = 0.005], the first entry of the first target parameter becomes
    [1.5 + 2^-23]. *)
Lemma update_identical_counterexample :
  exists c c' old new,
    critic_1_5 = Some c
    /\ CriticNet.parameters (Critic.target_net c)
       = CriticNet.parameters (Critic.critic_net c)
    /\ Critic.update c = Some c'
    /\ CriticNet.parameters (Critic.target_net c) !! 0 = Some old
    /\ CriticNet.parameters (Critic.target_net c') !! 0 = Some new
    /\ valid_index (nshape old) [0; 0; 0; 0]
    /\ ndata old [0; 0; 0; 0] = S754_finite false 12582912 (-23)
    /\ ndata new [0; 0; 0; 0] = S754_finite false 12582913 (-23)
    /\ ndata new [0; 0; 0; 0] <> ndata old [0; 0; 0; 0].
Proof.
  do 4 eexists.
  split; [vm_compute; reflexivity|].
  split; [reflexivity|].
  split; [vm_compute; reflexivity|].
  split; [reflexivity|].
  split; [reflexivity|].
  split; [repeat constructor|].
  split; [reflexivity|].
  split; [reflexivity|].
  discriminate.
Qed.

(** C7, amended.  In exact arithmetic, when the online and the target
    network hold identical parameters, one call of [update] leaves every
    entry of every target parameter unchanged. *)
Theorem update_identical_exact (c : Critic.t R R) :
  CriticNet.parameters (Critic.target_net c)
  = CriticNet.parameters (Critic.critic_net c) ->
  exists c',
    Critic.update c = Some c'
    /\ forall k old,
        CriticNet.parameters (Critic.target_net c) !! k = Some old ->
        exists new,
          CriticNet.parameters (Critic.target_net c') !! k = Some new
          /\ nshape new = nshape old
          /\ forall idx, valid_index (nshape old) idx -> ndata new idx = ndata old idx.
Proof.
  intros Heq.
  assert (Hwf : same_shapes c) by (unfold same_shapes; rewrite Heq; reflexivity).
  destruct (update_lookup c Hwf) as (c' & Hu & _ & _ & _ & Hk).
  exists c'. split; [exact Hu|].
  intros k old Ho.
  destruct (Hk k old old Ho) as (_ & new & Hnew & Hup); [rewrite <- Heq; exact Ho|].
  destruct (update_param_inv _ _ _ _ Hup) as [Hs Hd].
  exists new. split; [exact Hnew|]. split; [exact Hs|].
  intros idx Hv. rewrite Hd, (bidx_valid _ _ Hv). unfold polyak. simpl. ring.
Qed.

Lemma update_identical_exact_witness :
  exists c,
    Critic.__init__ "cpu" (3 / 10000)%R (5 / 1000)%R init0 init0 = Some c
    /\ CriticNet.parameters (Critic.target_net c)
       = CriticNet.parameters (Critic.critic_net c)
    /\ exists c',
        Critic.update c = Some c'
        /\ forall k old,
            CriticNet.parameters (Critic.target_net c) !! k = Some old ->
            exists new,
              CriticNet.parameters (Critic.target_net c') !! k = Some new
              /\ nshape new = nshape old
              /\ forall idx,
                  valid_index (nshape old) idx -> ndata new idx = ndata old idx.
Proof.
  destruct (Critic_init_identical "cpu" (3 / 10000)%R (5 / 1000)%R init0)
    as (c & Hc & _ & Heq).
  exists c. split; [exact Hc|]. split; [exact Heq|].
  exact (update_identical_exact c Heq).
Defined.

(** ** [Entropy] *)

Lemma alloc_spec (st : store) (v : tensor) :
  tensors st !! (alloc st v).1 = None
  /\ tensors (alloc st v).2 !! (alloc st v).1 = Some v
  /\ grads (alloc st v).2 = grads st
  /\ forall l, l <> (alloc st v).1 -> tensors (alloc st v).2 !! l = tensors st !! l.
Proof.
  unfold alloc. simpl. split; [|split; [|split]].
  - apply not_elem_of_dom, is_fresh.
  - apply lookup_insert_eq.
  - reflexivity.
  - intros l Hl. apply lookup_insert_ne. congruence.
Qed.

(** The state right after construction: [log_alpha] and [alpha] are two
    distinct fresh tensors, the first holds zero, the second [exp 0 = 1],
    and nothing that was in the store has moved. *)
Lemma Entropy_init_spec (device : string) (entropy_lr : R) (action_dim : Z)
    (st : store) :
  let e := (Entropy.__init__ device entropy_lr action_dim st).1 in
  let st' := (Entropy.__init__ device entropy_lr action_dim st).2 in
  Entropy.target_entropy e = (- action_dim)%Z
  /\ Entropy.entropy_lr e = entropy_lr
  /\ Entropy.log_alpha e <> Entropy.alpha e
  /\ Adam.params (Entropy.optimizer e) = [Entropy.log_alpha e]
  /\ tensors st' !! Entropy.log_alpha e = Some (with_grad (zeros [1]))
  /\ tensors st' !! Entropy.alpha e = Some (mkT [1] (fun _ => exp 0) true)
  /\ Entropy.optimizer e = Adam.__init__ [Entropy.log_alpha e] entropy_lr
  /\ forall l, is_Some (tensors st !! l) -> tensors st' !! l = tensors st !! l.
Proof.
  unfold Entropy.__init__.
  pose proof (alloc_spec st (with_grad (zeros [1]))) as (Hf1 & Hl1 & _ & Ho1).
  destruct (alloc st (with_grad (zeros [1]))) as [l1 st1].
  cbn [fst snd] in Hf1, Hl1, Ho1.
  assert (Hr : read st1 l1 = with_grad (zeros [1]))
    by (unfold read; rewrite Hl1; reflexivity).
  rewrite Hr.
  pose proof (alloc_spec st1 (map_t exp (with_grad (zeros [1]))))
    as (Hf2 & Hl2 & _ & Ho2).
  destruct (alloc st1 (map_t exp (with_grad (zeros [1])))) as [l2 st2].
  cbn [fst snd] in Hf2, Hl2, Ho2.
  cbn [fst snd Entropy.target_entropy Entropy.entropy_lr Entropy.log_alpha
       Entropy.alpha Entropy.optimizer Adam.__init__ Adam.params].
  assert (Hne : l1 <> l2) by (intros ->; congruence).
  split; [reflexivity|]. split; [reflexivity|]. split; [exact Hne|].
  split; [reflexivity|].
  split; [rewrite Ho2 by exact Hne; exact Hl1|].
  split; [exact Hl2|]. split; [reflexivity|].
  intros l [t Hl].
  assert (Hl1' : l <> l1) by (intros ->; congruence).
  assert (Hl2' : l <> l2).
  { intros ->. rewrite Ho1 in Hf2 by exact Hl1'. congruence. }
  rewrite Ho2 by exact Hl2'. apply Ho1. exact Hl1'.
Qed.

(** [step] writes no tensor outside the parameters of the optimizer and
    keeps the parameter list. *)
Lemma Adam_step_param_frame (o : Adam.t) (p : loc) (st : store) :
  Adam.params (Adam.step_param o p st).1 = Adam.params o
  /\ forall l, l <> p ->
       tensors (Adam.step_param o p st).2 !! l = tensors st !! l.
Proof.
  unfold Adam.step_param.
  destruct (grads st !! p) as [g|]; [|split; reflexivity].
  destruct (tensors st !! p) as [t|]; [|split; reflexivity].
  simpl. split; [reflexivity|].
  intros l Hl. apply lookup_insert_ne. congruence.
Qed.

Lemma Adam_step_frame (o : Adam.t) (st : store) :
  Adam.params (Adam.step o st).1 = Adam.params o
  /\ forall l, l ∉ Adam.params o ->
       tensors (Adam.step o st).2 !! l = tensors st !! l.
Proof.
  unfold Adam.step.
  assert (Hgen : forall ps o0 st0,
             Adam.params (foldl (fun '(o, st) p => Adam.step_param o p st) (o0, st0) ps).1
             = Adam.params o0
             /\ forall l, l ∉ ps ->
                  tensors (foldl (fun '(o, st) p => Adam.step_param o p st) (o0, st0) ps).2 !! l
                  = tensors st0 !! l).
  { induction ps as [|p ps IH]; intros o0 st0; simpl; [split; reflexivity|].
    destruct (Adam_step_param_frame o0 p st0) as [Hp Hf].
    destruct (Adam.step_param o0 p st0) as [o1 st1]. simpl in Hp, Hf.
    destruct (IH o1 st1) as [Hp' Hf'].
    split; [congruence|].
    intros l Hl. apply not_elem_of_cons in Hl as [Hne Hnin].
    rewrite Hf' by exact Hnin. apply Hf. exact Hne. }
  apply Hgen.
Qed.

(** [learn] leaves the fields of the object alone, the optimizer keeps its
    parameter list, and no tensor other than the optimizer's parameters is
    written. *)
Lemma Entropy_learn_frame (e : Entropy.t) (loss : loss_t) (st : store) :
  let e' := (Entropy.learn e loss st).1 in
  let st' := (Entropy.learn e loss st).2 in
  Entropy.alpha e' = Entropy.alpha e
  /\ Entropy.log_alpha e' = Entropy.log_alpha e
  /\ Entropy.target_entropy e' = Entropy.target_entropy e
  /\ Entropy.entropy_lr e' = Entropy.entropy_lr e
  /\ Adam.params (Entropy.optimizer e') = Adam.params (Entropy.optimizer e)
  /\ forall l, l ∉ Adam.params (Entropy.optimizer e) ->
       tensors st' !! l = tensors st !! l.
Proof.
  unfold Entropy.learn.
  set (st1 := backward loss (Adam.zero_grad (Entropy.optimizer e) st)).
  destruct (Adam_step_frame (Entropy.optimizer e) st1) as [Hp Hf].
  destruct (Adam.step (Entropy.optimizer e) st1) as [o st2]. simpl in *.
  repeat split; try reflexivity; [exact Hp|].
  intros l Hl. rewrite Hf by exact Hl. reflexivity.
Qed.

Lemma Entropy_learn_all_frame (losses : list loss_t) (e : Entropy.t) (st : store) :
  let e' := (Entropy.learn_all e losses st).1 in
  let st' := (Entropy.learn_all e losses st).2 in
  Entropy.alpha e' = Entropy.alpha e
  /\ Entropy.log_alpha e' = Entropy.log_alpha e
  /\ Entropy.target_entropy e' = Entropy.target_entropy e
  /\ Entropy.entropy_lr e' = Entropy.entropy_lr e
  /\ Adam.params (Entropy.optimizer e') = Adam.params (Entropy.optimizer e)
  /\ forall l, l ∉ Adam.params (Entropy.optimizer e) ->
       tensors st' !! l = tensors st !! l.
Proof.
  unfold Entropy.learn_all. revert e st.
  induction losses as [|loss losses IH]; intros e st; simpl.
  - repeat split; reflexivity.
  - destruct (Entropy_learn_frame e loss st) as (H1 & H2 & H3 & H4 & H5 & H6).
    destruct (Entropy.learn e loss st) as [e1 st1]. simpl in *.
    destruct (IH e1 st1) as (G1 & G2 & G3 & G4 & G5 & G6).
    repeat split; try congruence.
    intros l Hl. rewrite G6 by (rewrite H5; exact Hl). apply H6. exact Hl.
Qed.

(** C9.  Built with [action_dim = 3], the object has target entropy [-3];
    [log_alpha] holds zero and [alpha], a one-element tensor, holds
    [1]. *)
Theorem Entropy_init_dim3 (device : string) (entropy_lr : R) (st : store) :
  let e := (Entropy.__init__ device entropy_lr 3 st).1 in
  let st' := (Entropy.__init__ device entropy_lr 3 st).2 in
  Entropy.target_entropy e = (-3)%Z
  /\ shape (read st' (Entropy.alpha e)) = [1]
  /\ (forall idx, data (read st' (Entropy.alpha e)) idx = 1%R)
  /\ (forall idx, data (read st' (Entropy.log_alpha e)) idx = 0%R).
Proof.
  destruct (Entropy_init_spec device entropy_lr 3 st)
    as (Ht & _ & _ & _ & Hla & Ha & _ & _).
  cbv zeta. unfold read. rewrite Ha, Hla. simpl.
  split; [exact Ht|]. split; [reflexivity|].
  split; intros idx; [apply exp_0 | reflexivity].
Qed.

(** C8.  [alpha] is computed once, by the constructor, from the initial
    [log_alpha]; no run of [learn] calls refreshes it.  After the run the
    field still refers to the same tensor, which still holds
    [exp 0 = 1]; the only tensor of the store that may have been written
    is [log_alpha]. *)
Theorem Entropy_alpha_not_refreshed (device : string) (entropy_lr : R)
    (action_dim : Z) (st : store) (losses : list loss_t) :
  let e := (Entropy.__init__ device entropy_lr action_dim st).1 in
  let st1 := (Entropy.__init__ device entropy_lr action_dim st).2 in
  let e' := (Entropy.learn_all e losses st1).1 in
  let st2 := (Entropy.learn_all e losses st1).2 in
  Entropy.alpha e' = Entropy.alpha e
  /\ Entropy.log_alpha e' = Entropy.log_alpha e
  /\ Entropy.target_entropy e' = Entropy.target_entropy e
  /\ tensors st2 !! Entropy.alpha e' = tensors st1 !! Entropy.alpha e
  /\ shape (read st2 (Entropy.alpha e')) = [1]
  /\ (forall idx, data (read st2 (Entropy.alpha e')) idx = exp 0)
  /\ (forall idx, data (read st2 (Entropy.alpha e')) idx = 1%R)
  /\ forall l, l <> Entropy.log_alpha e -> tensors st2 !! l = tensors st1 !! l.
Proof.
  cbv zeta.
  destruct (Entropy_init_spec device entropy_lr action_dim st)
    as (_ & _ & Hne & Hp & _ & Ha & _ & _). cbv zeta in Hne, Hp, Ha.
  set (e := (Entropy.__init__ device entropy_lr action_dim st).1) in *.
  set (st1 := (Entropy.__init__ device entropy_lr action_dim st).2) in *.
  destruct (Entropy_learn_all_frame losses e st1) as (Hal & Hlg & Hte & _ & _ & Hf).
  cbv zeta in Hal, Hlg, Hte, Hf. rewrite Hp in Hf.
  assert (Hfr : forall l, l <> Entropy.log_alpha e ->
                  tensors (Entropy.learn_all e losses st1).2 !! l = tensors st1 !! l).
  { intros l Hl. apply Hf. rewrite list_elem_of_singleton. exact Hl. }
  rewrite Hal.
  assert (Hsame : tensors (Entropy.learn_all e losses st1).2 !! Entropy.alpha e
                  = tensors st1 !! Entropy.alpha e) by (apply Hfr; congruence).
  split; [reflexivity|]. split; [exact Hlg|]. split; [exact Hte|].
  split; [exact Hsame|].
  unfold read. rewrite Hsame, Ha. simpl.
  split; [reflexivity|]. split; [reflexivity|].
  split; [intros _; apply exp_0 | exact Hfr].
Qed.

(** A [learn] call does move [log_alpha]: with a positive learning rate and
    a loss whose gradient in [log_alpha] is one, the entry goes below its
    initial zero, while [alpha] stays at one. *)
Lemma Entropy_learn_moves_log_alpha (device : string) (entropy_lr : R)
    (action_dim : Z) (st : store) :
  (0 < entropy_lr)%R ->
  let e := (Entropy.__init__ device entropy_lr action_dim st).1 in
  let st1 := (Entropy.__init__ device entropy_lr action_dim st).2 in
  let loss : loss_t := {[ Entropy.log_alpha e := fun _ => 1%R ]} in
  let st2 := (Entropy.learn e loss st1).2 in
  (data (read st2 (Entropy.log_alpha e)) [0%nat] < 0)%R
  /\ data (read st1 (Entropy.log_alpha e)) [0] = 0%R.
Proof.
  intros Hlr.
  pose proof (Entropy_init_spec device entropy_lr action_dim st) as Hi.
  cbv zeta in Hi |- *.
  destruct (Entropy.__init__ device entropy_lr action_dim st) as [e st1].
  cbn [fst snd] in Hi |- *.
  destruct Hi as (_ & _ & _ & _ & Hla & _ & Ho & _).
  split; [|unfold read; rewrite Hla; reflexivity].
  unfold Entropy.learn. rewrite Ho.
  unfold Adam.step, Adam.zero_grad, backward, Adam.__init__.
  cbn [Adam.params foldl foldr tensors grads].
  unfold Adam.step_param.
  cbn [Adam.params Adam.lr Adam.beta1 Adam.beta2 Adam.eps Adam.state tensors grads].
  rewrite lookup_union_with, lookup_delete_eq, lookup_singleton_eq, Hla.
  rewrite lookup_empty.
  cbn [union_with option_union_with default Adam.step_count Adam.exp_avg
       Adam.exp_avg_sq fst snd tensors].
  unfold read. cbn [tensors]. rewrite lookup_insert_eq.
  cbn [default data with_grad zeros shape].
  assert (Hd : (0 < sqrt (999 / 1000 * 0 + (1 - 999 / 1000) * (1 * 1))
                    / sqrt (1 - (999 / 1000) ^ 1) + 1 / 100000000)%R).
  { apply Rplus_le_lt_0_compat; [|lra].
    apply Rmult_le_pos; [apply sqrt_pos|].
    left. apply Rinv_0_lt_compat, sqrt_lt_R0. lra. }
  set (d := (sqrt _ / sqrt _ + _)%R) in *.
  assert (Hq : (0 < (9 / 10 * 0 + (1 - 9 / 10) * 1) / d)%R).
  { apply Rdiv_lt_0_compat; [lra | exact Hd]. }
  assert (Hs : (0 < entropy_lr / (1 - (9 / 10) ^ 1))%R).
  { apply Rdiv_lt_0_compat; [exact Hlr | lra]. }
  unfold Datatypes.id. cbn [data].
  set (q := ((9 / 10 * 0 + (1 - 9 / 10) * 1) / d)%R) in *.
  set (r := (entropy_lr / (1 - (9 / 10) ^ 1))%R) in *.
  nra.
Qed.

(** * Further properties *)

(** ** Sizes through the convolutional stack *)

Lemma conv_stack_leb (h : nat) :
  (8 <=? h) && (4 <=? (h - 8) / 4 + 1) && (3 <=? ((h - 8) / 4 + 1 - 4) / 2 + 1)
  = (36 <=? h).
Proof.
  apply Bool.eq_iff_eq_true.
  rewrite !andb_true_iff, !Nat.leb_le.
  pose proof (Nat.div_mod_eq (h - 8) 4) as E1.
  pose proof (Nat.mod_upper_bound (h - 8) 4 ltac:(lia)) as U1.
  set (q1 := (h - 8) / 4) in *. set (r1 := (h - 8) mod 4) in *.
  pose proof (Nat.div_mod_eq (q1 + 1 - 4) 2) as E2.
  pose proof (Nat.mod_upper_bound (q1 + 1 - 4) 2 ltac:(lia)) as U2.
  set (q2 := (q1 + 1 - 4) / 2) in *. set (r2 := (q1 + 1 - 4) mod 2) in *.
  lia.
Qed.

Lemma nested_checks {X : Type} (e a1 a2 a3 b1 b2 b3 : bool) (x : X) :
  (if e && a1 && b1 && true
   then if true && a2 && b2 && true
        then if true && a3 && b3 && true then Some x else None
        else None
   else None)
  = if e && (a1 && a2 && a3) && (b1 && b2 && b3) then Some x else None.
Proof. destruct e, a1, a2, a3, b1, b2, b3; reflexivity. Qed.

(** On a batched input, the stack returns exactly when the number of
    channels is right and there are at least 36 rows and 36 columns. *)
Lemma conv_stack_shape {A : Type} (cin : nat) (w0 b0 w2 b2 w4 b4 : list nat -> A)
    (B C H W : nat) :
  nn.seq_out_shape (conv_stack cin w0 b0 w2 b2 w4 b4) [B; C; H; W]
  = if (C =? cin) && (36 <=? H) && (36 <=? W)
    then Some [B; 64 * (conv_stack_out H * conv_stack_out W)]
    else None.
Proof.
  rewrite <- (conv_stack_leb H), <- (conv_stack_leb W).
  rewrite <- nested_checks.
  unfold conv_stack, nn.Conv2d, nn.ReLU, nn.Flatten.
  cbn [nn.seq_out_shape nn.out_shape nn.conv2d_out_shape mbind option_bind
       nn.kernel_size nn.stride nn.in_channels nn.out_channels].
  change (0 <? 4) with true.
  destruct (_ && _ && _ && true); [|reflexivity].
  cbn [nn.seq_out_shape nn.out_shape nn.conv2d_out_shape mbind option_bind
       nn.kernel_size nn.stride nn.in_channels nn.out_channels].
  change (0 <? 2) with true. change (32 =? 32) with true.
  destruct (_ && _ && _ && true); [|reflexivity].
  cbn [nn.seq_out_shape nn.out_shape nn.conv2d_out_shape mbind option_bind
       nn.kernel_size nn.stride nn.in_channels nn.out_channels].
  change (0 <? 1) with true. change (64 =? 64) with true.
  destruct (_ && _ && _ && true); [|reflexivity].
  cbn [nn.seq_out_shape nn.out_shape nn.flatten_out_shape mbind option_bind
       numel fold_right].
  unfold conv_stack_out, conv_out. rewrite !Nat.mul_1_r. reflexivity.
Qed.

(** ** Construction and shapes of [ActorNet] *)

Lemma seq_forward_cases (m : nn.Sequential R) (x : tensor) :
  match nn.seq_out_shape m (shape x) with
  | Some s => exists y, nn.seq_forward m x = Some y /\ shape y = s
  | None => nn.seq_forward m x = None
  end.
Proof.
  pose proof (seq_forward_out_shape m x) as Hs.
  destruct (nn.seq_out_shape m (shape x)) as [s|];
    destruct (nn.seq_forward m x) as [y|]; simpl in Hs; try discriminate.
  - exists y. split; [reflexivity | congruence].
  - reflexivity.
Qed.

Lemma forward_cases (l : nn.layer R) (x : tensor) :
  match nn.out_shape l (shape x) with
  | Some s => exists y, nn.forward l x = Some y /\ shape y = s
  | None => nn.forward l x = None
  end.
Proof.
  pose proof (forward_out_shape l x) as Hs.
  destruct (nn.out_shape l (shape x)) as [s|];
    destruct (nn.forward l x) as [y|]; simpl in Hs; try discriminate.
  - exists y. split; [reflexivity | congruence].
  - reflexivity.
Qed.

(** The network the constructor builds, when it builds one. *)
Lemma ActorNet_init_eq (max_action : tensor) (c h w action_dim : nat)
    (init : string -> list nat -> R) :
  ActorNet.__init__ max_action (c, h, w) action_dim init
  = if (36 <=? h) && (36 <=? w)
    then
      let n := 64 * (conv_stack_out h * conv_stack_out w) in
      Some (ActorNet.mk max_action
              (conv_stack c
                 (init "conv_layers.0.weight") (init "conv_layers.0.bias")
                 (init "conv_layers.2.weight") (init "conv_layers.2.bias")
                 (init "conv_layers.4.weight") (init "conv_layers.4.bias"))
              n
              (nn.Linear n 512 (init "fc.weight") (init "fc.bias"))
              (nn.Linear 512 action_dim (init "mean.weight") (init "mean.bias"))
              (nn.Linear 512 action_dim
                 (init "log_std.weight") (init "log_std.bias")))
    else None.
Proof.
  unfold ActorNet.__init__, ActorNet._get_conv_output. cbn [fst].
  match goal with
  | |- context [nn.seq_forward ?m (zeros [1; c; h; w])] =>
      change m with (conv_stack c
                 (init "conv_layers.0.weight") (init "conv_layers.0.bias")
                 (init "conv_layers.2.weight") (init "conv_layers.2.bias")
                 (init "conv_layers.4.weight") (init "conv_layers.4.bias"))
  end.
  set (m := conv_stack _ _ _ _ _ _ _).
  pose proof (seq_forward_cases m (zeros [1; c; h; w])) as Hc.
  unfold m in Hc at 1. cbn [shape zeros] in Hc.
  rewrite conv_stack_shape, Nat.eqb_refl in Hc. cbn [andb] in Hc.
  destruct ((36 <=? h) && (36 <=? w)).
  - destruct Hc as (y & -> & Hy). cbn [mbind option_bind].
    rewrite Hy. cbn [numel fold_right].
    rewrite Nat.mul_1_l, Nat.mul_1_r. reflexivity.
  - rewrite Hc. reflexivity.
Qed.

(** X1.  On an input shape with at least one channel, the constructor of
    [ActorNet] succeeds exactly when there are at least 36 rows and 36
    columns, whatever the number of actions; the first linear layer then
    takes 64 features per position left by the three convolutions. *)
Theorem ActorNet_init_size (max_action : tensor) (c h w action_dim : nat)
    (init : string -> list nat -> R) :
  0 < c ->
  option_map ActorNet.flattened_size
    (ActorNet.__init__ max_action (c, h, w) action_dim init)
  = if (36 <=? h) && (36 <=? w)
    then Some (64 * (conv_stack_out h * conv_stack_out w))
    else None.
Proof.
  intros _. rewrite ActorNet_init_eq.
  destruct ((36 <=? h) && (36 <=? w)); reflexivity.
Qed.

Lemma ActorNet_init_size_witness :
  option_map ActorNet.flattened_size
    (ActorNet.__init__ ones5 (1, 84, 84) 5 init0) = Some 3136
  /\ option_map ActorNet.flattened_size
       (ActorNet.__init__ ones5 (3, 84, 35) 5 init0) = None.
Proof.
  split.
  - rewrite (ActorNet_init_size ones5 1 84 84 5 init0 ltac:(lia)). reflexivity.
  - rewrite (ActorNet_init_size ones5 3 84 35 5 init0 ltac:(lia)). reflexivity.
Defined.

Lemma linear_out_shape_2d {A : Type} (fin fout : nat) (w b : list nat -> A)
    (B n : nat) :
  nn.out_shape (nn.Linear fin fout w b) [B; n]
  = if n =? fin then Some [B; fout] else None.
Proof. reflexivity. Qed.

Lemma eqb_mul_64 (a b : nat) : (64 * a =? 64 * b) = (a =? b).
Proof.
  destruct (Nat.eqb_spec a b) as [->|Hne].
  - apply Nat.eqb_refl.
  - apply Nat.eqb_neq. lia.
Qed.

(** X2.  For a network built by the constructor on input shape
    [(c, h, w)] with at least one channel, and a batched state
    [(B, C, H, W)]: [forward] returns exactly when [C = c], the state has
    at least 36 rows and columns and the convolutions leave as many
    positions as the constructor found, and [max_action] broadcasts
    against [(B, action_dim)]; [std] then has one row per observation and
    [action_dim] columns, and [mean] the broadcast of that shape with the
    shape of [max_action]. *)
Theorem ActorNet_forward_shapes (max_action : tensor) (c h w action_dim : nat)
    (init : string -> list nat -> R) (net : ActorNet.t) (state : tensor)
    (B C H W : nat) :
  0 < c ->
  ActorNet.__init__ max_action (c, h, w) action_dim init = Some net ->
  shape state = [B; C; H; W] ->
  option_map (fun '(mean, std) => (shape mean, shape std))
    (ActorNet.forward net state)
  = if (C =? c) && (36 <=? H) && (36 <=? W)
       && (conv_stack_out H * conv_stack_out W
           =? conv_stack_out h * conv_stack_out w)
    then smean ← broadcast_shapes (shape max_action) [B; action_dim];
         Some (smean, [B; action_dim])
    else None.
Proof.
  intros _. rewrite ActorNet_init_eq.
  destruct ((36 <=? h) && (36 <=? w)); [|discriminate].
  cbv zeta. intros Heq Es. apply (inj Some) in Heq. subst net.
  rewrite ActorNet_forward_shape_ok. unfold ActorNet_forward_shape.
  cbn [ActorNet.conv_layers ActorNet.fc ActorNet.mean ActorNet.log_std
       ActorNet.max_action].
  rewrite Es, conv_stack_shape.
  destruct ((C =? c) && (36 <=? H) && (36 <=? W)); [|reflexivity].
  cbn [mbind option_bind andb]. rewrite linear_out_shape_2d, eqb_mul_64.
  destruct (_ =? _); [|reflexivity].
  cbn [mbind option_bind]. rewrite !linear_out_shape_2d, Nat.eqb_refl.
  cbn [mbind option_bind].
  destruct (broadcast_shapes _ _); reflexivity.
Qed.

Lemma ActorNet_forward_shapes_witness :
  exists net,
    ActorNet.__init__ ones5 (1, 84, 84) 5 init0 = Some net
    /\ option_map (fun '(mean, std) => (shape mean, shape std))
         (ActorNet.forward net (zeros [2; 1; 87; 84]))
       = Some ([2; 5], [2; 5])
    /\ option_map (fun '(mean, std) => (shape mean, shape std))
         (ActorNet.forward net (zeros [2; 1; 92; 84]))
       = None.
Proof.
  destruct (ActorNet_init_default ones5 init0) as (net & Hn & _).
  exists net. split; [exact Hn|]. split.
  - rewrite (ActorNet_forward_shapes ones5 1 84 84 5 init0 net
               (zeros [2; 1; 87; 84]) 2 1 87 84 ltac:(lia) Hn eq_refl).
    reflexivity.
  - rewrite (ActorNet_forward_shapes ones5 1 84 84 5 init0 net
               (zeros [2; 1; 92; 84]) 2 1 92 84 ltac:(lia) Hn eq_refl).
    reflexivity.
Defined.

(** ** Shapes and edge cases of [Actor.choose_action] *)

(** [choose_action] returns exactly when the forward pass does and the
    shapes met on the way broadcast; [numpy()] never refuses. *)
Lemma choose_action_shape (a : Actor.t) (state : tensor) (eps : list nat -> R) :
  option_map nshape (Actor.choose_action a state eps)
  = ('(smean, sstd) ← ActorNet_forward_shape (Actor.actor_net a) (shape state);
     s ← broadcast_shapes smean sstd;
     s1 ← broadcast_shapes s (shape (Actor.min_action a));
     broadcast_shapes s1 (shape (Actor.max_action a))).
Proof.
  rewrite <- ActorNet_forward_shape_ok. unfold Actor.choose_action.
  destruct (ActorNet.forward _ state) as [[mean std]|]; [|reflexivity].
  cbn [option_map mbind option_bind]. unfold Normal.make.
  destruct (broadcast_shapes (shape mean) (shape std)) as [s|]; [|reflexivity].
  cbn [mbind option_bind]. unfold clamp, map2_t.
  cbn [shape Normal.sample Normal.loc Normal.expand].
  destruct (broadcast_shapes s (shape (Actor.min_action a))) as [s1|]; [|reflexivity].
  cbn [mbind option_bind shape].
  destruct (broadcast_shapes s1 (shape (Actor.max_action a))) as [s2|]; reflexivity.
Qed.

Lemma broadcast_vector_matrix (k B n : nat) :
  broadcast_shapes [k] [B; n]
  = if k =? n then Some [B; n] else if k =? 1 then Some [B; n]
    else if n =? 1 then Some [B; k] else None.
Proof.
  unfold broadcast_shapes. cbn [rev app broadcast_rev option_map].
  destruct (Nat.eqb_spec k n) as [->|_]; [reflexivity|].
  destruct (k =? 1); [reflexivity|].
  destruct (n =? 1); reflexivity.
Qed.

Lemma broadcast_matrix_vector (k B n : nat) :
  broadcast_shapes [B; n] [k]
  = if k =? n then Some [B; n] else if k =? 1 then Some [B; n]
    else if n =? 1 then Some [B; k] else None.
Proof. rewrite broadcast_shapes_comm. apply broadcast_vector_matrix. Qed.

(** X3.  An [Actor] always carries a network of five outputs.  With
    vector bounds, [choose_action] on a batch of [B] default-sized
    observations returns an array of shape [(B, 5)] when each bound has
    five entries or one, and raises for any other length. *)
Theorem choose_action_vector_bounds (device : string) (actor_lr : R)
    (min_action max_action : tensor) (init : string -> list nat -> R)
    (a : Actor.t) (state : tensor) (eps : list nat -> R) (k1 k2 B : nat) :
  Actor.__init__ device actor_lr min_action max_action init = Some a ->
  shape min_action = [k1] ->
  shape max_action = [k2] ->
  shape state = [B; 1; 84; 84] ->
  option_map nshape (Actor.choose_action a state eps)
  = if ((k1 =? 5) || (k1 =? 1)) && ((k2 =? 5) || (k2 =? 1))
    then Some [B; 5] else None.
Proof.
  intros Ha Hmin Hmax Hst.
  destruct (Actor_init_default device actor_lr min_action max_action init)
    as (a' & Ha' & Hmn & Hmx & _ & Hs).
  rewrite Ha in Ha'. apply (inj Some) in Ha'. subst a'.
  rewrite choose_action_shape, Hst, Hs, Hmn, Hmx, Hmin, Hmax.
  unfold default_forward_shape. rewrite broadcast_vector_matrix.
  destruct (Nat.eqb_spec k2 5) as [->|H5].
  - cbn [orb andb mbind option_bind]. rewrite broadcast_shapes_refl.
    cbn [mbind option_bind]. rewrite !broadcast_matrix_vector.
    destruct (k1 =? 5); cbn [orb andb mbind option_bind];
      [rewrite broadcast_matrix_vector; reflexivity|].
    destruct (k1 =? 1); cbn [orb andb mbind option_bind];
      [rewrite broadcast_matrix_vector; reflexivity|].
    reflexivity.
  - destruct (Nat.eqb_spec k2 1) as [->|H1].
    + cbn [orb andb mbind option_bind]. rewrite broadcast_shapes_refl.
      cbn [mbind option_bind]. rewrite !broadcast_matrix_vector.
      destruct (k1 =? 5); cbn [orb andb mbind option_bind];
        [rewrite broadcast_matrix_vector; reflexivity|].
      destruct (k1 =? 1); cbn [orb andb mbind option_bind];
        [rewrite broadcast_matrix_vector; reflexivity|].
      reflexivity.
    + change (5 =? 1) with false. cbn [orb andb mbind option_bind].
      rewrite andb_false_r. reflexivity.
Qed.

Lemma choose_action_vector_bounds_witness :
  exists a,
    Actor.__init__ "cpu" (1 / 10) neg_ones5 ones5 init0 = Some a
    /\ shape neg_ones5 = [5] /\ shape ones5 = [5]
    /\ shape (zeros [3; 1; 84; 84]) = [3; 1; 84; 84]
    /\ option_map nshape (Actor.choose_action a (zeros [3; 1; 84; 84]) eps0)
       = Some [3; 5].
Proof.
  destruct (Actor_init_default "cpu" (1 / 10) neg_ones5 ones5 init0)
    as (a & Ha & _).
  exists a. split; [exact Ha|]. split; [reflexivity|]. split; [reflexivity|].
  split; [reflexivity|].
  exact (choose_action_vector_bounds "cpu" (1 / 10) neg_ones5 ones5 init0 a
           (zeros [3; 1; 84; 84]) eps0 5 5 3 Ha eq_refl eq_refl eq_refl).
Defined.

(** The entries of the array in terms of the forward pass and the noise:
    [s] is the shape on which the distribution was built. *)
Lemma choose_action_value (a : Actor.t) (state : tensor) (eps : list nat -> R)
    (arr : ndarray R) :
  Actor.choose_action a state eps = Some arr ->
  exists mean std s,
    ActorNet.forward (Actor.actor_net a) state = Some (mean, std)
    /\ broadcast_shapes (shape mean) (shape std) = Some s
    /\ forall idx,
        ndata arr idx
        = Rclamp (bget mean idx + bget std idx * eps (bidx s idx))
            (bget (Actor.min_action a) idx) (bget (Actor.max_action a) idx).
Proof.
  intros H.
  destruct (choose_action_inv _ _ _ _ H)
    as (mean & std & dist & action & Hf & Hd & Hc & Hn).
  unfold Normal.make in Hd. bind_inv Hd. apply (inj Some) in Hd. subst dist.
  exists mean, std, x. split; [exact Hf|]. split; [exact E|].
  intros idx. injection Hn as <-. cbn [ndata].
  destruct (clamp_inv _ _ _ _ Hc) as [Hv _]. rewrite Hv.
  f_equal. unfold bget at 1.
  cbn [Normal.sample Normal.loc Normal.scale Normal.expand shape data].
  unfold bget.
  rewrite (bidx_compose_l _ _ _ _ E), (bidx_compose_r _ _ _ _ E). reflexivity.
Qed.

(** X4.  The array returned by [choose_action] is the reparameterised
    sample [mean + std * eps] clamped to the bounds; a sample that already
    lies within the bounds is returned unchanged. *)
Theorem choose_action_sample (a : Actor.t) (state : tensor)
    (eps : list nat -> R) (arr : ndarray R) :
  Actor.choose_action a state eps = Some arr ->
  exists mean std s,
    ActorNet.forward (Actor.actor_net a) state = Some (mean, std)
    /\ broadcast_shapes (shape mean) (shape std) = Some s
    /\ forall idx,
        let x := (bget mean idx + bget std idx * eps (bidx s idx))%R in
        ndata arr idx
        = Rclamp x (bget (Actor.min_action a) idx) (bget (Actor.max_action a) idx)
        /\ ((bget (Actor.min_action a) idx <= x <= bget (Actor.max_action a) idx)%R
            -> ndata arr idx = x).
Proof.
  intros H.
  destruct (choose_action_value _ _ _ _ H) as (mean & std & s & Hf & Hs & Hv).
  exists mean, std, s. split; [exact Hf|]. split; [exact Hs|].
  intros idx x. split; [apply Hv|].
  intros Hin. rewrite Hv. apply Rclamp_id. exact Hin.
Qed.

Lemma choose_action_sample_witness :
  exists a arr mean std s,
    Actor.__init__ "cpu" (1 / 10) neg_ones5 ones5 init0 = Some a
    /\ Actor.choose_action a obs0 eps0 = Some arr
    /\ ActorNet.forward (Actor.actor_net a) obs0 = Some (mean, std)
    /\ broadcast_shapes (shape mean) (shape std) = Some s
    /\ forall idx,
        let x := (bget mean idx + bget std idx * eps0 (bidx s idx))%R in
        ndata arr idx
        = Rclamp x (bget (Actor.min_action a) idx) (bget (Actor.max_action a) idx)
        /\ ((bget (Actor.min_action a) idx <= x <= bget (Actor.max_action a) idx)%R
            -> ndata arr idx = x).
Proof.
  destruct (Actor_init_default "cpu" (1 / 10) neg_ones5 ones5 init0)
    as (a & Ha & Hmin & Hmax & _ & Hs).
  destruct (choose_action_total a obs0 eps0 [1; 5] [1; 5] [1; 5])
    as (arr & Harr & _).
  { simpl. rewrite Hs. reflexivity. }
  { rewrite Hmin. reflexivity. }
  { rewrite Hmax. reflexivity. }
  destruct (choose_action_sample a obs0 eps0 arr Harr)
    as (mean & std & s & Hf & Hbs & Hv).
  exists a, arr, mean, std, s. auto.
Defined.

(** X5.  Where the bounds are crossed, [min_action] above [max_action],
    the returned entry is [max_action], whatever the sample. *)
Theorem choose_action_crossed_bounds (a : Actor.t) (state : tensor)
    (eps : list nat -> R) (arr : ndarray R) (idx : list nat) :
  Actor.choose_action a state eps = Some arr ->
  (bget (Actor.max_action a) idx < bget (Actor.min_action a) idx)%R ->
  ndata arr idx = bget (Actor.max_action a) idx.
Proof.
  intros H Hx. destruct (choose_action_entry _ _ _ _ H idx) as [x ->].
  unfold Rclamp. apply Rmin_right.
  apply Rle_trans with (bget (Actor.min_action a) idx); [lra | apply Rmax_r].
Qed.

Lemma ones5_at (j : nat) :
  j < 5 -> bget ones5 [0; j] = 1%R /\ bget neg_ones5 [0; j] = (-1)%R.
Proof.
  intros Hj. unfold bget, bidx. cbn.
  do 5 (destruct j as [|j]; [split; reflexivity|]). lia.
Qed.

Lemma choose_action_crossed_bounds_witness :
  exists a arr,
    Actor.__init__ "cpu" (1 / 10) ones5 neg_ones5 init0 = Some a
    /\ Actor.choose_action a obs0 eps0 = Some arr
    /\ (bget (Actor.max_action a) [0%nat; 2%nat] < bget (Actor.min_action a) [0%nat; 2%nat])%R
    /\ ndata arr [0; 2] = bget (Actor.max_action a) [0; 2].
Proof.
  destruct (Actor_init_default "cpu" (1 / 10) ones5 neg_ones5 init0)
    as (a & Ha & Hmin & Hmax & _ & Hs).
  destruct (choose_action_total a obs0 eps0 [1; 5] [1; 5] [1; 5])
    as (arr & Harr & _).
  { simpl. rewrite Hs. reflexivity. }
  { rewrite Hmin. reflexivity. }
  { rewrite Hmax. reflexivity. }
  assert (Hx : (bget (Actor.max_action a) [0%nat; 2%nat] < bget (Actor.min_action a) [0%nat; 2%nat])%R).
  { rewrite Hmin, Hmax. destruct (ones5_at 2 ltac:(lia)) as [-> ->]. lra. }
  exists a, arr. split; [exact Ha|]. split; [exact Harr|]. split; [exact Hx|].
  exact (choose_action_crossed_bounds a obs0 eps0 arr [0; 2] Harr Hx).
Defined.

(** ** Edge cases of [Actor.evaluate] *)

(** X6.  At an entry where the bounds lie inside [[-1, 1]], the action
    lies in [[-1, 1]], so the argument [1 - action^2 + 1e-6] of the
    logarithm in the log-probability is positive: the correction term is
    defined. *)
Theorem evaluate_log_argument (a : Actor.t) (state : tensor)
    (eps : list nat -> R) (action lp z mean std : tensor) (idx : list nat) :
  Actor.evaluate a state eps = Some (action, lp, z, mean, std) ->
  (-1 <= bget (Actor.min_action a) idx)%R ->
  (bget (Actor.min_action a) idx <= bget (Actor.max_action a) idx)%R ->
  (bget (Actor.max_action a) idx <= 1)%R ->
  (-1 <= data action idx <= 1
   /\ 0 < 1 - data action idx ^ 2 + 1 / 1000000)%R.
Proof.
  intros H H1 H2 H3.
  destruct (evaluate_inv _ _ _ _ _ _ _ _ H) as (_ & _ & _ & _ & Ha & _).
  assert (Hr : (-1 <= data action idx <= 1)%R).
  { rewrite Ha.
    pose proof (Rclamp_ge_lo
                  (tanh (bget mean idx + bget std idx * bget z idx)) _ _ H2).
    pose proof (Rclamp_le_hi
                  (tanh (bget mean idx + bget std idx * bget z idx))
                  (bget (Actor.min_action a) idx) (bget (Actor.max_action a) idx)).
    lra. }
  split; [exact Hr|]. set (v := data action idx) in *. nra.
Qed.

Lemma evaluate_log_argument_witness :
  exists a action lp z mean std,
    Actor.__init__ "cpu" (1 / 10) neg_ones5 ones5 init0 = Some a
    /\ Actor.evaluate a obs0 eps0 = Some (action, lp, z, mean, std)
    /\ (-1 <= data action [0%nat; 2%nat] <= 1
        /\ 0 < 1 - data action [0%nat; 2%nat] ^ 2 + 1 / 1000000)%R.
Proof.
  destruct (Actor_init_default "cpu" (1 / 10) neg_ones5 ones5 init0)
    as (a & Ha & Hmin & Hmax & _ & Hs).
  destruct (evaluate_total a obs0 eps0 [1; 5] [1; 5] [1; 5] [1; 5])
    as (action & lp & z & mean & std & He & _).
  { simpl. rewrite Hs. reflexivity. }
  { rewrite Hmin. reflexivity. }
  { rewrite Hmax. reflexivity. }
  { reflexivity. }
  destruct (ones5_at 2 ltac:(lia)) as [Hone Hneg].
  exists a, action, lp, z, mean, std.
  split; [exact Ha|]. split; [exact He|].
  apply (evaluate_log_argument a obs0 eps0 action lp z mean std [0; 2] He);
    rewrite ?Hmin, ?Hmax, ?Hone, ?Hneg; lra.
Defined.

(** X7.  At an entry where the bounds contain [[-1, 1]], the clamp of
    [evaluate] does nothing: the action is [tanh (mean + std * z)] itself,
    a value of [[-1, 1]]. *)
Theorem evaluate_clamp_inactive (a : Actor.t) (state : tensor)
    (eps : list nat -> R) (action lp z mean std : tensor) (idx : list nat) :
  Actor.evaluate a state eps = Some (action, lp, z, mean, std) ->
  (bget (Actor.min_action a) idx <= -1)%R ->
  (1 <= bget (Actor.max_action a) idx)%R ->
  data action idx = tanh (bget mean idx + bget std idx * data z [])
  /\ (-1 <= data action idx <= 1)%R.
Proof.
  intros H H1 H2.
  destruct (evaluate_inv _ _ _ _ _ _ _ _ H) as (_ & _ & _ & Hz & Ha & _).
  rewrite Ha, Hz.
  pose proof (tanh_bounds (bget mean idx + bget std idx * data z [])) as Ht.
  rewrite Rclamp_id by lra. split; [reflexivity | lra].
Qed.

Lemma evaluate_clamp_inactive_witness :
  exists a action lp z mean std,
    Actor.__init__ "cpu" (1 / 10) neg_ones5 ones5 init0 = Some a
    /\ Actor.evaluate a obs0 eps0 = Some (action, lp, z, mean, std)
    /\ data action [0; 2]
       = tanh (bget mean [0; 2] + bget std [0; 2] * data z [])
    /\ (-1 <= data action [0%nat; 2%nat] <= 1)%R.
Proof.
  destruct (Actor_init_default "cpu" (1 / 10) neg_ones5 ones5 init0)
    as (a & Ha & Hmin & Hmax & _ & Hs).
  destruct (evaluate_total a obs0 eps0 [1; 5] [1; 5] [1; 5] [1; 5])
    as (action & lp & z & mean & std & He & _).
  { simpl. rewrite Hs. reflexivity. }
  { rewrite Hmin. reflexivity. }
  { rewrite Hmax. reflexivity. }
  { reflexivity. }
  destruct (ones5_at 2 ltac:(lia)) as [Hone Hneg].
  exists a, action, lp, z, mean, std.
  split; [exact Ha|]. split; [exact He|].
  apply (evaluate_clamp_inactive a obs0 eps0 action lp z mean std [0; 2] He);
    rewrite ?Hmin, ?Hmax, ?Hone, ?Hneg; lra.
Defined.

(** ** Construction and shapes of [CriticNet] *)

Lemma fc_stack_shape {A : Type} (fin : nat) (w0 b0 w2 b2 w4 b4 : list nat -> A)
    (B n : nat) :
  nn.seq_out_shape (fc_stack fin w0 b0 w2 b2 w4 b4) [B; n]
  = if n =? fin then Some [B; 1] else None.
Proof.
  unfold fc_stack. cbn [nn.seq_out_shape]. rewrite linear_out_shape_2d.
  destruct (n =? fin); [|reflexivity].
  cbn [mbind option_bind nn.out_shape nn.ReLU].
  rewrite linear_out_shape_2d, Nat.eqb_refl.
  cbn [mbind option_bind nn.out_shape nn.ReLU].
  rewrite linear_out_shape_2d, Nat.eqb_refl. reflexivity.
Qed.

Lemma CriticNet_init_eq {A : Type} (c h w action_dim : nat)
    (init : string -> list nat -> A) :
  CriticNet.__init__ (c, h, w) action_dim init
  = if (36 <=? h) && (36 <=? w)
    then
      let n := 64 * (conv_stack_out h * conv_stack_out w) in
      Some (CriticNet.mk
              (conv_stack c
                 (init "conv_layers_q1.0.weight") (init "conv_layers_q1.0.bias")
                 (init "conv_layers_q1.2.weight") (init "conv_layers_q1.2.bias")
                 (init "conv_layers_q1.4.weight") (init "conv_layers_q1.4.bias"))
              n
              (fc_stack (n + action_dim)
                 (init "fc_q1.0.weight") (init "fc_q1.0.bias")
                 (init "fc_q1.2.weight") (init "fc_q1.2.bias")
                 (init "fc_q1.4.weight") (init "fc_q1.4.bias"))
              (conv_stack c
                 (init "conv_layers_q2.0.weight") (init "conv_layers_q2.0.bias")
                 (init "conv_layers_q2.2.weight") (init "conv_layers_q2.2.bias")
                 (init "conv_layers_q2.4.weight") (init "conv_layers_q2.4.bias"))
              (fc_stack (n + action_dim)
                 (init "fc_q2.0.weight") (init "fc_q2.0.bias")
                 (init "fc_q2.2.weight") (init "fc_q2.2.bias")
                 (init "fc_q2.4.weight") (init "fc_q2.4.bias")))
    else None.
Proof.
  unfold CriticNet.__init__, CriticNet._get_conv_output. cbn [fst].
  match goal with
  | |- context [nn.seq_out_shape ?m [1; c; h; w]] =>
      change m with (conv_stack c
                 (init "conv_layers_q1.0.weight") (init "conv_layers_q1.0.bias")
                 (init "conv_layers_q1.2.weight") (init "conv_layers_q1.2.bias")
                 (init "conv_layers_q1.4.weight") (init "conv_layers_q1.4.bias"))
  end.
  rewrite conv_stack_shape, Nat.eqb_refl. cbn [andb].
  destruct ((36 <=? h) && (36 <=? w)); [|reflexivity].
  cbn [mbind option_bind numel fold_right].
  rewrite Nat.mul_1_l, Nat.mul_1_r. reflexivity.
Qed.

(** X8.  On an input shape with at least one channel, the constructor of
    [CriticNet] succeeds exactly when there are at least 36 rows and 36
    columns, and then finds 64 features per position left by the
    convolutions. *)
Theorem CriticNet_init_size {A : Type} (c h w action_dim : nat)
    (init : string -> list nat -> A) :
  0 < c ->
  option_map CriticNet.flattened_size
    (CriticNet.__init__ (c, h, w) action_dim init)
  = if (36 <=? h) && (36 <=? w)
    then Some (64 * (conv_stack_out h * conv_stack_out w))
    else None.
Proof.
  intros _. rewrite CriticNet_init_eq.
  destruct ((36 <=? h) && (36 <=? w)); reflexivity.
Qed.

Lemma CriticNet_init_size_witness :
  option_map CriticNet.flattened_size (CriticNet.__init__ (1, 84, 84) 5 init0)
  = Some 3136
  /\ option_map CriticNet.flattened_size (CriticNet.__init__ (3, 35, 84) 5 init0)
     = None.
Proof.
  split.
  - rewrite (CriticNet_init_size 1 84 84 5 init0 ltac:(lia)). reflexivity.
  - rewrite (CriticNet_init_size 3 35 84 5 init0 ltac:(lia)). reflexivity.
Defined.

Lemma cat1_cases (x y : tensor) (B n B' m : nat) :
  shape x = [B; n] -> shape y = [B'; m] ->
  if B =? B'
  then exists r, cat1 x y = Some r /\ shape r = [B; n + m]
  else cat1 x y = None.
Proof.
  intros Hx Hy. unfold cat1. rewrite Hx, Hy.
  destruct B' as [|b]; (destruct (B =? _); [|reflexivity]);
    eexists; split; reflexivity.
Qed.

(** An action without entries is skipped: the features go on alone. *)
Lemma cat1_empty (x y : tensor) (B n : nat) :
  shape x = [B; n] -> shape y = [0] ->
  exists r, cat1 x y = Some r /\ shape r = [B; n]
            /\ forall b j, data r [b; j] = data x [b; j].
Proof.
  intros Hx Hy. unfold cat1. rewrite Hx, Hy.
  eexists. split; [reflexivity|]. split; reflexivity.
Qed.

(** One branch of the critic on a batched state and a matrix of actions:
    features, concatenation with the action, head. *)
Lemma critic_branch_shape (cin fin : nat)
    (w0 b0 w2 b2 w4 b4 v0 c0 v2 c2 v4 c4 : list nat -> R)
    (state action : tensor) (B C H W B' m : nat) :
  shape state = [B; C; H; W] -> shape action = [B'; m] ->
  option_map shape
    (f ← nn.seq_forward (conv_stack cin w0 b0 w2 b2 w4 b4) state;
     q ← cat1 f action;
     nn.seq_forward (fc_stack fin v0 c0 v2 c2 v4 c4) q)
  = if (C =? cin) && (36 <=? H) && (36 <=? W) && (B =? B')
       && (64 * (conv_stack_out H * conv_stack_out W) + m =? fin)
    then Some [B; 1] else None.
Proof.
  intros Es Ea.
  pose proof (seq_forward_cases (conv_stack cin w0 b0 w2 b2 w4 b4) state) as Hc.
  rewrite Es, conv_stack_shape in Hc.
  destruct ((C =? cin) && (36 <=? H) && (36 <=? W)); cbn [andb].
  2:{ rewrite Hc. reflexivity. }
  destruct Hc as (f & -> & Hf). cbn [mbind option_bind].
  pose proof (cat1_cases f action _ _ _ _ Hf Ea) as Hk.
  destruct (B =? B'); cbn [andb]; [|rewrite Hk; reflexivity].
  destruct Hk as (q & -> & Hq). cbn [mbind option_bind].
  pose proof (seq_forward_cases (fc_stack fin v0 c0 v2 c2 v4 c4) q) as Hh.
  rewrite Hq, fc_stack_shape in Hh.
  destruct (_ =? fin).
  - destruct Hh as (r & -> & Hr). cbn [option_map]. congruence.
  - rewrite Hh. reflexivity.
Qed.

(** The forward pass is the two branches one after the other. *)
Lemma CriticNet_forward_branches (net : CriticNet.t R) (state action : tensor) :
  CriticNet.forward net state action
  = (q1 ← (f ← nn.seq_forward (CriticNet.conv_layers_q1 net) state;
           q ← cat1 f action;
           nn.seq_forward (CriticNet.fc_q1 net) q);
     q2 ← (f ← nn.seq_forward (CriticNet.conv_layers_q2 net) state;
           q ← cat1 f action;
           nn.seq_forward (CriticNet.fc_q2 net) q);
     Some (q1, q2)).
Proof.
  unfold CriticNet.forward.
  destruct (nn.seq_forward (CriticNet.conv_layers_q1 net) state) as [f1|];
    [|reflexivity].
  cbn [mbind option_bind].
  destruct (cat1 f1 action) as [c1|]; [|reflexivity].
  cbn [mbind option_bind].
  destruct (nn.seq_forward (CriticNet.fc_q1 net) c1) as [q1|]; [|reflexivity].
  cbn [mbind option_bind].
  destruct (nn.seq_forward (CriticNet.conv_layers_q2 net) state) as [f2|];
    [|reflexivity].
  cbn [mbind option_bind].
  destruct (cat1 f2 action) as [c2|]; reflexivity.
Qed.

(** X9.  For a critic network built on input shape [(c, h, w)] with at
    least one channel and [action_dim] actions, a batched state
    [(B, C, H, W)] and a matrix of actions [(B', m)]: [forward] returns
    exactly when [C = c], the state has at least 36 rows and columns, the
    action has as many rows as the batch, and the features left by the
    convolutions plus the action columns add up to the width the head was
    built for; both values then have shape [(B, 1)].  Only that sum is
    checked, not the two widths separately. *)
Theorem CriticNet_forward_shapes (c h w action_dim : nat)
    (init : string -> list nat -> R) (net : CriticNet.t R)
    (state action : tensor) (B C H W B' m : nat) :
  0 < c ->
  CriticNet.__init__ (c, h, w) action_dim init = Some net ->
  shape state = [B; C; H; W] ->
  shape action = [B'; m] ->
  option_map (fun '(q1, q2) => (shape q1, shape q2))
    (CriticNet.forward net state action)
  = if (C =? c) && (36 <=? H) && (36 <=? W) && (B =? B')
       && (64 * (conv_stack_out H * conv_stack_out W) + m
           =? 64 * (conv_stack_out h * conv_stack_out w) + action_dim)
    then Some ([B; 1], [B; 1]) else None.
Proof.
  intros _. rewrite CriticNet_init_eq.
  destruct ((36 <=? h) && (36 <=? w)); [|discriminate].
  cbv zeta. intros Heq Es Ea. apply (inj Some) in Heq. subst net.
  rewrite CriticNet_forward_branches.
  cbn [CriticNet.conv_layers_q1 CriticNet.fc_q1 CriticNet.conv_layers_q2
       CriticNet.fc_q2].
  match goal with
  | |- context [mbind _ ?b1 ] =>
      match b1 with
      | context [init "fc_q1.0.weight"] => set (br1 := b1)
      end
  end.
  match goal with
  | |- context [mbind _ ?b2 ] =>
      match b2 with
      | context [init "fc_q2.0.weight"] =>
          lazymatch b2 with
          | context [br1] => fail
          | _ => set (br2 := b2)
          end
      end
  end.
  pose proof (critic_branch_shape c
                (64 * (conv_stack_out h * conv_stack_out w) + action_dim)
                _ _ _ _ _ _ _ _ _ _ _ _ state action _ _ _ _ _ _ Es Ea
              : option_map shape br1 = _)
    as H1.
  pose proof (critic_branch_shape c
                (64 * (conv_stack_out h * conv_stack_out w) + action_dim)
                _ _ _ _ _ _ _ _ _ _ _ _ state action _ _ _ _ _ _ Es Ea
              : option_map shape br2 = _)
    as H2.
  destruct (_ && _).
  - destruct br1 as [q1|]; [|discriminate]. destruct br2 as [q2|]; [|discriminate].
    cbn in *. congruence.
  - destruct br1; [discriminate | reflexivity].
Qed.

Lemma CriticNet_forward_shapes_witness :
  exists net,
    CriticNet.__init__ (1, 84, 84) 5 init0 = Some net
    /\ option_map (fun '(q1, q2) => (shape q1, shape q2))
         (CriticNet.forward net (zeros [2; 1; 84; 84]) (zeros [2; 5]))
       = Some ([2; 1], [2; 1])
    /\ option_map (fun '(q1, q2) => (shape q1, shape q2))
         (CriticNet.forward net (zeros [2; 1; 84; 84]) (zeros [3; 5]))
       = None.
Proof.
  destruct (CriticNet.__init__ (1, 84, 84) 5 init0) as [net|] eqn:E;
    [|rewrite CriticNet_init_eq in E; discriminate E].
  exists net. split; [reflexivity|]. split.
  - rewrite (CriticNet_forward_shapes 1 84 84 5 init0 net
               (zeros [2; 1; 84; 84]) (zeros [2; 5]) 2 1 84 84 2 5
               ltac:(lia) E eq_refl eq_refl).
    reflexivity.
  - rewrite (CriticNet_forward_shapes 1 84 84 5 init0 net
               (zeros [2; 1; 84; 84]) (zeros [3; 5]) 2 1 84 84 3 5
               ltac:(lia) E eq_refl eq_refl).
    reflexivity.
Defined.

(** ** Repeated Polyak updates *)

Section PolyakRuns.
Context {S T : Type} `{Arith S T}.
Implicit Types (c : Critic.t S T).

(** One update keeps the shape of every target parameter. *)
Lemma update_shapes c c' :
  same_shapes c ->
  Critic.update c = Some c' ->
  map nshape (CriticNet.parameters (Critic.target_net c'))
  = map nshape (CriticNet.parameters (Critic.target_net c))
  /\ Critic.critic_net c' = Critic.critic_net c
  /\ Critic.tau c' = Critic.tau c.
Proof.
  intros Hwf Hu.
  destruct (update_lookup c Hwf) as (c0 & Hu0 & Ht & Hn & Hl & Hk).
  rewrite Hu in Hu0. apply (inj Some) in Hu0. subst c0.
  split; [|split; assumption].
  destruct (same_shapes_pairs c Hwf) as [Hlen _].
  apply list_eq. intros k. rewrite !list_lookup_fmap.
  destruct (CriticNet.parameters (Critic.target_net c) !! k) as [old|] eqn:Eo.
  - destruct (CriticNet.parameters (Critic.critic_net c) !! k) as [online|] eqn:En.
    + destruct (Hk k old online Eo En) as (_ & new & -> & Hup).
      destruct (update_param_inv _ _ _ _ Hup) as [Hs _]. simpl. congruence.
    + apply lookup_ge_None in En. apply lookup_lt_Some in Eo. lia.
  - apply lookup_ge_None in Eo.
    rewrite (proj2 (lookup_ge_None _ k)) by lia. reflexivity.
Qed.

Lemma update_same_shapes c c' :
  same_shapes c -> Critic.update c = Some c' -> same_shapes c'.
Proof.
  intros Hwf Hu. destruct (update_shapes c c' Hwf Hu) as (Hs & Hn & _).
  unfold same_shapes in *. rewrite Hs, Hn. exact Hwf.
Qed.

(** X10.  Any number of [update] calls in a row succeeds on a critic whose
    two networks have parameters of the same shapes, and leaves [tau], the
    online network and the shape of every target parameter as they
    were. *)
Theorem update_n_invariant c (n : nat) :
  same_shapes c ->
  exists c',
    Critic.update_n n c = Some c'
    /\ same_shapes c'
    /\ Critic.critic_net c' = Critic.critic_net c
    /\ Critic.tau c' = Critic.tau c
    /\ map nshape (CriticNet.parameters (Critic.target_net c'))
       = map nshape (CriticNet.parameters (Critic.target_net c)).
Proof.
  revert c. induction n as [|n IH]; intros c Hwf.
  - exists c. repeat split; [exact Hwf].
  - destruct (update_lookup c Hwf) as (c1 & Hu & _).
    destruct (update_shapes c c1 Hwf Hu) as (Hs & Hn & Ht).
    destruct (IH c1 (update_same_shapes c c1 Hwf Hu)) as (c' & Hr & Hwf' & Hn' & Ht' & Hs').
    exists c'. cbn [Critic.update_n]. rewrite Hu. cbn [mbind option_bind].
    split; [exact Hr|]. split; [exact Hwf'|].
    split; [congruence|]. split; congruence.
Qed.
End PolyakRuns.

Lemma update_n_invariant_witness :
  exists c c',
    critic_1_5 = Some c
    /\ same_shapes c
    /\ Critic.update_n 3 c = Some c'
    /\ same_shapes c'
    /\ Critic.critic_net c' = Critic.critic_net c
    /\ Critic.tau c' = Critic.tau c
    /\ map nshape (CriticNet.parameters (Critic.target_net c'))
       = map nshape (CriticNet.parameters (Critic.target_net c)).
Proof.
  destruct (Critic_init_total "cpu" lr_0_0003 tau_0_005
              (fun _ _ => f32_1_5) (fun _ _ => f32_1_5)) as (c & Hc & _ & Hwf & _).
  destruct (update_n_invariant c 3 Hwf) as (c' & Hr).
  exists c, c'. split; [exact Hc|]. split; [exact Hwf|]. exact Hr.
Defined.

(** The entries after one update, in exact arithmetic. *)
Lemma update_entries_R (c c' : Critic.t R R) :
  same_shapes c ->
  Critic.update c = Some c' ->
  forall k old online new,
    CriticNet.parameters (Critic.target_net c) !! k = Some old ->
    CriticNet.parameters (Critic.critic_net c) !! k = Some online ->
    CriticNet.parameters (Critic.target_net c') !! k = Some new ->
    nshape new = nshape old
    /\ forall idx,
        valid_index (nshape old) idx ->
        ndata new idx
        = (ndata old idx * (1 - Critic.tau c) + ndata online idx * Critic.tau c)%R.
Proof.
  intros Hwf Hu k old online new Ho Hn Hnew.
  destruct (update_lookup c Hwf) as (c0 & Hu0 & _ & _ & _ & Hk).
  rewrite Hu in Hu0. apply (inj Some) in Hu0. subst c0.
  destruct (Hk k old online Ho Hn) as (Hso & new' & Hnew' & Hup).
  rewrite Hnew in Hnew'. apply (inj Some) in Hnew'. subst new'.
  destruct (update_param_inv _ _ _ _ Hup) as [Hs Hd].
  split; [exact Hs|].
  intros idx Hv. rewrite Hd. unfold polyak.
  rewrite <- Hso, (bidx_valid _ _ Hv). reflexivity.
Qed.

(** X11.  In exact arithmetic, after [n] updates against an unchanged
    online network, the distance of every target entry to the online
    entry has shrunk by the factor [(1 - tau)^n]. *)
Theorem update_n_closed_form (n : nat) (c c' : Critic.t R R) :
  same_shapes c ->
  Critic.update_n n c = Some c' ->
  forall k old online new,
    CriticNet.parameters (Critic.target_net c) !! k = Some old ->
    CriticNet.parameters (Critic.critic_net c) !! k = Some online ->
    CriticNet.parameters (Critic.target_net c') !! k = Some new ->
    forall idx,
      valid_index (nshape old) idx ->
      ndata new idx
      = (ndata online idx
         + (1 - Critic.tau c) ^ n * (ndata old idx - ndata online idx))%R.
Proof.
  revert c. induction n as [|n IH]; intros c Hwf Hr k old online new Ho Hn Hnew idx Hv.
  - cbn [Critic.update_n] in Hr. apply (inj Some) in Hr. subst c'.
    rewrite Ho in Hnew. apply (inj Some) in Hnew. subst new. simpl. ring.
  - cbn [Critic.update_n] in Hr.
    destruct (Critic.update c) as [c1|] eqn:Hu; [|discriminate Hr].
    cbn [mbind option_bind] in Hr.
    destruct (update_shapes c c1 Hwf Hu) as (_ & Hn1 & Ht1).
    destruct (update_lookup c Hwf) as (c0 & Hu0 & _ & _ & _ & Hk).
    rewrite Hu in Hu0. apply (inj Some) in Hu0. subst c0.
    destruct (Hk k old online Ho Hn) as (_ & mid & Hmid & _).
    destruct (update_entries_R c c1 Hwf Hu k old online mid Ho Hn Hmid)
      as [Hs Hd].
    rewrite (IH c1 (update_same_shapes c c1 Hwf Hu) Hr k mid online new Hmid
               ltac:(rewrite Hn1; exact Hn) Hnew idx ltac:(rewrite Hs; exact Hv)).
    rewrite Ht1, (Hd idx Hv). simpl. ring.
Qed.

Lemma update_n_closed_form_witness :
  exists c c',
    Critic.__init__ "cpu" (3 / 10000)%R (5 / 1000)%R init0 (fun _ _ => 1%R)
    = Some c
    /\ same_shapes c
    /\ Critic.update_n 2 c = Some c'
    /\ forall k old online new,
        CriticNet.parameters (Critic.target_net c) !! k = Some old ->
        CriticNet.parameters (Critic.critic_net c) !! k = Some online ->
        CriticNet.parameters (Critic.target_net c') !! k = Some new ->
        forall idx,
          valid_index (nshape old) idx ->
          ndata new idx
          = (ndata online idx
             + (1 - Critic.tau c) ^ 2 * (ndata old idx - ndata online idx))%R.
Proof.
  destruct (Critic_init_total "cpu" (3 / 10000)%R (5 / 1000)%R init0
              (fun _ _ => 1%R)) as (c & Hc & _ & Hwf & _).
  destruct (update_lookup c Hwf) as (c1 & Hu1 & _).
  destruct (update_lookup c1 (update_same_shapes c c1 Hwf Hu1)) as (c' & Hu2 & _).
  assert (Hr : Critic.update_n 2 c = Some c').
  { cbn [Critic.update_n]. rewrite Hu1. cbn [mbind option_bind].
    rewrite Hu2. reflexivity. }
  exists c, c'. split; [exact Hc|]. split; [exact Hwf|]. split; [exact Hr|].
  exact (update_n_closed_form 2 c c' Hwf Hr).
Defined.

(** X12.  In exact arithmetic and for [tau] in [[0, 1]], one update puts
    every target entry between its old value and the online entry. *)
Theorem update_between (c c' : Critic.t R R) :
  same_shapes c ->
  (0 <= Critic.tau c <= 1)%R ->
  Critic.update c = Some c' ->
  forall k old online new,
    CriticNet.parameters (Critic.target_net c) !! k = Some old ->
    CriticNet.parameters (Critic.critic_net c) !! k = Some online ->
    CriticNet.parameters (Critic.target_net c') !! k = Some new ->
    forall idx,
      valid_index (nshape old) idx ->
      (Rmin (ndata old idx) (ndata online idx) <= ndata new idx
       <= Rmax (ndata old idx) (ndata online idx))%R.
Proof.
  intros Hwf Ht Hu k old online new Ho Hn Hnew idx Hv.
  destruct (update_entries_R c c' Hwf Hu k old online new Ho Hn Hnew) as [_ Hd].
  rewrite (Hd idx Hv).
  set (x := ndata old idx). set (y := ndata online idx). set (t := Critic.tau c) in *.
  unfold Rmin, Rmax. destruct (Rle_dec x y); nra.
Qed.

Lemma update_between_witness :
  exists c c',
    Critic.__init__ "cpu" (3 / 10000)%R (5 / 1000)%R init0 (fun _ _ => 1%R)
    = Some c
    /\ same_shapes c
    /\ (0 <= Critic.tau c <= 1)%R
    /\ Critic.update c = Some c'
    /\ forall k old online new,
        CriticNet.parameters (Critic.target_net c) !! k = Some old ->
        CriticNet.parameters (Critic.critic_net c) !! k = Some online ->
        CriticNet.parameters (Critic.target_net c') !! k = Some new ->
        forall idx,
          valid_index (nshape old) idx ->
          (Rmin (ndata old idx) (ndata online idx) <= ndata new idx
           <= Rmax (ndata old idx) (ndata online idx))%R.
Proof.
  destruct (Critic_init_total "cpu" (3 / 10000)%R (5 / 1000)%R init0
              (fun _ _ => 1%R)) as (c & Hc & Ht & Hwf & _).
  destruct (update_lookup c Hwf) as (c' & Hu & _).
  assert (Htau : (0 <= Critic.tau c <= 1)%R) by (rewrite Ht; lra).
  exists c, c'. split; [exact Hc|]. split; [exact Hwf|]. split; [exact Htau|].
  split; [exact Hu|].
  exact (update_between c c' Hwf Htau Hu).
Defined.

(** ** The first temperature step *)

Lemma sqrt_scaled_square (a g : R) :
  (0 < a)%R -> (sqrt (a * (g * g)) / sqrt a = Rabs g)%R.
Proof.
  intros Ha.
  rewrite sqrt_mult by (try lra; apply Rle_0_sqr).
  change (g * g)%R with (Rsqr g). rewrite sqrt_Rsqr_abs.
  field. apply Rgt_not_eq, sqrt_lt_R0, Ha.
Qed.

(** X13.  The first [learn] call after construction discards whatever
    gradient was left in the store and moves [log_alpha] from zero to
    [- lr * g / (|g| + 1e-8)], with [g] the gradient of the loss in
    [log_alpha]: against the sign of the gradient, and by less than the
    learning rate. *)
Theorem Entropy_first_step (device : string) (entropy_lr : R) (action_dim : Z)
    (st : store) (loss : loss_t) (g : list nat -> R) :
  let e := (Entropy.__init__ device entropy_lr action_dim st).1 in
  let st1 := (Entropy.__init__ device entropy_lr action_dim st).2 in
  let st2 := (Entropy.learn e loss st1).2 in
  loss !! Entropy.log_alpha e = Some g ->
  forall idx,
    data (read st2 (Entropy.log_alpha e)) idx
    = (- (entropy_lr * g idx / (Rabs (g idx) + 1 / 100000000)))%R
    /\ ((0 < entropy_lr)%R ->
        (Rabs (data (read st2 (Entropy.log_alpha e)) idx) < entropy_lr)%R).
Proof.
  pose proof (Entropy_init_spec device entropy_lr action_dim st) as Hi.
  cbv zeta in Hi |- *.
  destruct (Entropy.__init__ device entropy_lr action_dim st) as [e st1].
  cbn [fst snd] in Hi |- *.
  destruct Hi as (_ & _ & _ & _ & Hla & _ & Ho & _).
  intros Hg idx.
  assert (Hval : data (read (Entropy.learn e loss st1).2 (Entropy.log_alpha e)) idx
                 = (- (entropy_lr * g idx / (Rabs (g idx) + 1 / 100000000)))%R).
  { unfold Entropy.learn. rewrite Ho.
    unfold Adam.step, Adam.zero_grad, backward, Adam.__init__.
    cbn [Adam.params foldl foldr tensors grads].
    unfold Adam.step_param.
    cbn [Adam.params Adam.lr Adam.beta1 Adam.beta2 Adam.eps Adam.state
         tensors grads].
    rewrite lookup_union_with, lookup_delete_eq, Hg, Hla, lookup_empty.
    cbn [union_with option_union_with default Adam.step_count Adam.exp_avg
         Adam.exp_avg_sq fst snd tensors].
    unfold read. cbn [tensors]. rewrite lookup_insert_eq.
    cbn [default data with_grad zeros shape].
    unfold Datatypes.id. cbn [data].
    replace (999 / 1000 * 0 + (1 - 999 / 1000) * (g idx * g idx))%R
      with (1 / 1000 * (g idx * g idx))%R by field.
    replace (1 - (999 / 1000) ^ 1)%R with (1 / 1000)%R by field.
    rewrite sqrt_scaled_square by lra.
    pose proof (Rabs_pos (g idx)). field. lra. }
  split; [exact Hval|].
  intros Hlr. rewrite Hval, Rabs_Ropp.
  pose proof (Rabs_pos (g idx)) as Hp.
  unfold Rdiv at 1. rewrite Rmult_assoc, Rabs_mult, (Rabs_pos_eq entropy_lr) by lra.
  rewrite <- (Rmult_1_r entropy_lr) at 2.
  apply Rmult_lt_compat_l; [exact Hlr|].
  rewrite Rabs_mult, Rabs_inv, (Rabs_pos_eq (Rabs (g idx) + _)) by lra.
  apply Rmult_lt_reg_r with (Rabs (g idx) + 1 / 100000000)%R; [lra|].
  rewrite Rmult_assoc, Rinv_l by lra. lra.
Qed.

Lemma Entropy_first_step_witness :
  let st := mkStore ∅ ∅ in
  let e := (Entropy.__init__ "cpu" (1 / 1000) 5 st).1 in
  let st1 := (Entropy.__init__ "cpu" (1 / 1000) 5 st).2 in
  let loss : loss_t := {[ Entropy.log_alpha e := fun _ => 1%R ]} in
  let st2 := (Entropy.learn e loss st1).2 in
  loss !! Entropy.log_alpha e = Some (fun _ : list nat => 1%R)
  /\ forall idx,
      data (read st2 (Entropy.log_alpha e)) idx
      = (- (1 / 1000 * 1 / (Rabs 1 + 1 / 100000000)))%R
      /\ ((0 < 1 / 1000)%R ->
          (Rabs (data (read st2 (Entropy.log_alpha e)) idx) < 1 / 1000)%R).
Proof.
  intros st e st1 loss st2.
  assert (Hg : loss !! Entropy.log_alpha e = Some (fun _ : list nat => 1%R))
    by apply lookup_singleton_eq.
  split; [exact Hg|].
  exact (Entropy_first_step "cpu" (1 / 1000) 5 st loss (fun _ => 1%R) Hg).
Defined.

(** ** Frame of the Polyak update on the online values *)

(** X14.  No run of [update] calls changes what [get_q_value] returns:
    the online network is never written. *)
Theorem update_n_keeps_q_value {S : Type} `{Arith S R} (n : nat)
    (c c' : Critic.t S R) (state action : tensor) :
  Critic.update_n n c = Some c' ->
  Critic.get_q_value c' state action = Critic.get_q_value c state action.
Proof.
  revert c. induction n as [|n IH]; intros c Hr; cbn [Critic.update_n] in Hr.
  - apply (inj Some) in Hr. subst c'. reflexivity.
  - destruct (Critic.update c) as [c1|] eqn:Hu; [|discriminate Hr].
    cbn [mbind option_bind] in Hr. rewrite (IH c1 Hr).
    unfold Critic.update in Hu. bind_inv Hu. apply (inj Some) in Hu. subst c1.
    reflexivity.
Qed.

Lemma update_n_keeps_q_value_witness :
  exists c c',
    Critic.__init__ "cpu" (3 / 10000)%R (5 / 1000)%R init0 (fun _ _ => 1%R)
    = Some c
    /\ Critic.update_n 2 c = Some c'
    /\ Critic.get_q_value c' (zeros [1; 1; 84; 84]) (zeros [1; 5])
       = Critic.get_q_value c (zeros [1; 1; 84; 84]) (zeros [1; 5]).
Proof.
  destruct (Critic_init_total "cpu" (3 / 10000)%R (5 / 1000)%R init0
              (fun _ _ => 1%R)) as (c & Hc & _ & Hwf & _).
  destruct (update_lookup c Hwf) as (c1 & Hu1 & _).
  destruct (update_lookup c1 (update_same_shapes c c1 Hwf Hu1)) as (c' & Hu2 & _).
  assert (Hr : Critic.update_n 2 c = Some c').
  { cbn [Critic.update_n]. rewrite Hu1. cbn [mbind option_bind].
    rewrite Hu2. reflexivity. }
  exists c, c'. split; [exact Hc|]. split; [exact Hr|].
  exact (update_n_keeps_q_value 2 c c' _ _ Hr).
Defined.

(** ** Observations of a batch are processed independently *)

Lemma Rsum_ext (n : nat) (f g : nat -> R) :
  (forall k, f k = g k) -> Rsum n f = Rsum n g.
Proof.
  intros Hfg. unfold Rsum. induction (seq 0 n) as [|k l IH]; simpl;
    [reflexivity | rewrite Hfg, IH; reflexivity].
Qed.

Lemma unravel_nonempty (d : nat) (s : list nat) (n : nat) : unravel (d :: s) n <> [].
Proof. simpl. discriminate. Qed.

Lemma forward_rows_agree (l : nn.layer R) (b : nat) (x y x' y' : tensor) :
  rows_agree b x y ->
  nn.forward l x = Some x' ->
  nn.forward l y = Some y' ->
  rows_agree b x' y'.
Proof.
  intros [Hs Hd] Hx Hy. destruct l as [c| | |l]; cbn [nn.forward] in Hx, Hy.
  - unfold nn.conv2d_forward in Hx, Hy. rewrite <- Hs in Hy.
    destruct (shape x) as [|B [|C [|H [|W [|? ?]]]]]; try discriminate.
    match type of Hx with
    | (if ?cnd then _ else _) = _ => destruct cnd; [|discriminate]
    end.
    apply (inj Some) in Hx, Hy. subst x' y'. split; [reflexivity|].
    intros rest _. cbn [data].
    destruct rest as [|o [|i [|j [|? ?]]]]; try reflexivity.
    f_equal. apply Rsum_ext. intros ch. apply Rsum_ext. intros u.
    apply Rsum_ext. intros v. f_equal. apply Hd. discriminate.
  - apply (inj Some) in Hx, Hy. subst x' y'. split; [exact Hs|].
    intros rest Hr. cbn [nn.relu map_t data]. f_equal. apply Hd, Hr.
  - unfold nn.flatten in Hx, Hy. rewrite <- Hs in Hy.
    destruct (shape x) as [|B [|d rest0]]; try discriminate.
    apply (inj Some) in Hx, Hy. subst x' y'. split; [|].
    + cbn [shape]. reflexivity.
    + intros rest _. cbn [data].
      destruct rest as [|n [|? ?]]; try reflexivity.
      apply Hd, unravel_nonempty.
  - unfold nn.linear_forward in Hx, Hy. rewrite <- Hs in Hy.
    destruct (rev (shape x)) as [|n rpre]; [discriminate|].
    match type of Hx with
    | (if ?cnd then _ else _) = _ => destruct cnd; [|discriminate]
    end.
    apply (inj Some) in Hx, Hy. subst x' y'. split; [reflexivity|].
    intros rest Hr. cbn [data]. f_equal. apply Rsum_ext. intros k.
    f_equal. destruct rest as [|r rest]; [contradiction|].
    cbn [removelast app]. apply Hd.
    intros E. apply app_eq_nil in E as [_ E]. discriminate E.
Qed.

Lemma seq_forward_rows_agree (m : nn.Sequential R) (b : nat) (x y x' y' : tensor) :
  rows_agree b x y ->
  nn.seq_forward m x = Some x' ->
  nn.seq_forward m y = Some y' ->
  rows_agree b x' y'.
Proof.
  revert x y. induction m as [|l m IH]; intros x y Hr Hx Hy;
    cbn [nn.seq_forward] in Hx, Hy.
  - apply (inj Some) in Hx, Hy. subst. exact Hr.
  - destruct (nn.forward l x) as [x1|] eqn:E1; [|discriminate].
    destruct (nn.forward l y) as [y1|] eqn:E2; [|discriminate].
    cbn [mbind option_bind] in Hx, Hy.
    exact (IH x1 y1 (forward_rows_agree l b x y x1 y1 Hr E1 E2) Hx Hy).
Qed.

(** One step of a hypothesis [e >>= k = Some r], with chosen names. *)
Ltac bind_step H x E :=
  match type of H with
  | mbind _ ?e = Some _ => destruct e as [x|] eqn:E; [|discriminate H];
                           cbn [mbind option_bind] in H
  end.

Lemma linear_out_shape_params {A : Type} (fin fout : nat)
    (w b w' b' : list nat -> A) (s : list nat) :
  nn.out_shape (nn.Linear fin fout w b) s = nn.out_shape (nn.Linear fin fout w' b') s.
Proof. reflexivity. Qed.

(** X15.  [ActorNet.forward] treats the observations of a batch
    independently: for a network built by the constructor, two batches of
    the same shape that agree on observation [b] give the same row [b] of
    [mean] and of [std], whatever the other observations are. *)
Theorem ActorNet_forward_rowwise (max_action : tensor) (c h w action_dim : nat)
    (init : string -> list nat -> R) (net : ActorNet.t)
    (x y mean std mean' std' : tensor) (b j : nat) :
  ActorNet.__init__ max_action (c, h, w) action_dim init = Some net ->
  shape x = shape y ->
  (forall rest, data x (b :: rest) = data y (b :: rest)) ->
  ActorNet.forward net x = Some (mean, std) ->
  ActorNet.forward net y = Some (mean', std') ->
  valid_index (shape std) [b; j] ->
  data mean [b; j] = data mean' [b; j] /\ data std [b; j] = data std' [b; j].
Proof.
  rewrite ActorNet_init_eq.
  destruct ((36 <=? h) && (36 <=? w)); [|discriminate].
  cbv zeta. intros Heq Hs Hd Hx Hy Hv. apply (inj Some) in Heq. subst net.
  unfold ActorNet.forward in Hx, Hy.
  cbn [ActorNet.conv_layers ActorNet.fc ActorNet.mean ActorNet.log_std
       ActorNet.max_action] in Hx, Hy.
  assert (H0 : rows_agree b x y) by (split; [exact Hs | intros rest _; apply Hd]).
  bind_step Hx x1 Ex1. bind_step Hy y1 Ey1.
  pose proof (seq_forward_rows_agree _ b x y x1 y1 H0 Ex1 Ey1) as H1.
  bind_step Hx x2 Ex2. bind_step Hy y2 Ey2.
  pose proof (forward_rows_agree _ b x1 y1 x2 y2 H1 Ex2 Ey2) as H2.
  pose proof (forward_rows_agree nn.LReLU b x2 y2 _ _ H2 eq_refl eq_refl) as H3.
  bind_step Hx m Em. bind_step Hy m' Em'.
  pose proof (forward_rows_agree _ b _ _ m m' H3 Em Em') as [Hms Hmd].
  bind_step Hx mn Emn. bind_step Hy mn' Emn'.
  bind_step Hx l El. bind_step Hy l' El'.
  pose proof (forward_rows_agree _ b _ _ l l' H3 El El') as [Hls Hld].
  apply (inj Some) in Hx, Hy. injection Hx as <- <-. injection Hy as <- <-.
  cbn [shape map_t] in Hv.
  assert (Hsm : shape m = shape l).
  { pose proof (forward_out_shape
                  (nn.Linear 512 action_dim (init "mean.weight") (init "mean.bias"))
                  (nn.relu x2)) as F1.
    pose proof (forward_out_shape
                  (nn.Linear 512 action_dim
                     (init "log_std.weight") (init "log_std.bias"))
                  (nn.relu x2)) as F2.
    rewrite Em in F1. rewrite El in F2. cbn [option_map] in F1, F2.
    rewrite (linear_out_shape_params 512 action_dim _ _
               (init "mean.weight") (init "mean.bias")) in F2.
    congruence. }
  split.
  - destruct (map2_t_inv _ _ _ _ Emn) as (_ & Hv1 & _).
    destruct (map2_t_inv _ _ _ _ Emn') as (_ & Hv2 & _).
    rewrite Hv1, Hv2. f_equal. unfold bget. cbn [shape map_t data].
    rewrite <- Hms, Hsm, (bidx_valid _ _ Hv). f_equal. apply Hmd. discriminate.
  - cbn [data map_t]. do 2 f_equal. apply Hld. discriminate.
Qed.

Lemma ActorNet_forward_rowwise_witness :
  exists net mean std mean' std',
    ActorNet.__init__ ones5 (1, 84, 84) 5 init0 = Some net
    /\ shape obs_pair0 = shape obs_pair1
    /\ (forall rest, data obs_pair0 (1 :: rest) = data obs_pair1 (1 :: rest))
    /\ ActorNet.forward net obs_pair0 = Some (mean, std)
    /\ ActorNet.forward net obs_pair1 = Some (mean', std')
    /\ valid_index (shape std) [1; 3]
    /\ data mean [1; 3] = data mean' [1; 3] /\ data std [1; 3] = data std' [1; 3].
Proof.
  destruct (ActorNet_init_default ones5 init0) as (net & Hn & _ & _ & Hs).
  destruct (ActorNet_forward_total net obs_pair0 [2; 5] [2; 5])
    as (mean & std & Hf & _ & Hstd).
  { simpl. rewrite Hs. reflexivity. }
  destruct (ActorNet_forward_total net obs_pair1 [2; 5] [2; 5])
    as (mean' & std' & Hf' & _).
  { simpl. rewrite Hs. reflexivity. }
  assert (Hv : valid_index (shape std) [1; 3]).
  { rewrite Hstd. repeat constructor. }
  exists net, mean, std, mean', std'.
  split; [exact Hn|]. split; [reflexivity|]. split; [reflexivity|].
  split; [exact Hf|]. split; [exact Hf'|]. split; [exact Hv|].
  exact (ActorNet_forward_rowwise ones5 1 84 84 5 init0 net
           obs_pair0 obs_pair1 mean std mean' std' 1 3
           Hn eq_refl (fun _ => eq_refl) Hf Hf' Hv).
Defined.

(** ** Shapes of [Actor.evaluate] *)

Lemma map2_t_unfold (f : R -> R -> R) (x y : tensor) :
  map2_t f x y
  = match broadcast_shapes (shape x) (shape y) with
    | Some s =>
        Some (mkT s (fun idx => f (bget x idx) (bget y idx))
                  (requires_grad x || requires_grad y))
    | None => None
    end.
Proof. reflexivity. Qed.

(** [evaluate] returns exactly when the forward pass does and the shapes
    met on the way broadcast. *)
Lemma evaluate_shape (a : Actor.t) (state : tensor) (eps : list nat -> R) :
  option_map
    (fun '(action, lp, z, mean, std) =>
       (shape action, shape lp, shape z, shape mean, shape std))
    (Actor.evaluate a state eps)
  = ('(smean, sstd) ← ActorNet_forward_shape (Actor.actor_net a) (shape state);
     s ← broadcast_shapes smean sstd;
     s1 ← broadcast_shapes s (shape (Actor.min_action a));
     s2 ← broadcast_shapes s1 (shape (Actor.max_action a));
     s3 ← broadcast_shapes s s2;
     Some (s2, s3, [], smean, sstd)).
Proof.
  rewrite <- ActorNet_forward_shape_ok. unfold Actor.evaluate.
  destruct (ActorNet.forward _ state) as [[mean std]|]; [|reflexivity].
  cbn [option_map mbind option_bind].
  change (Normal.make mean std)
    with (s ← broadcast_shapes (shape mean) (shape std);
          Some (Normal.mk (Normal.expand mean s) (Normal.expand std s))).
  destruct (broadcast_shapes (shape mean) (shape std)) as [s|] eqn:Es;
    [|reflexivity].
  cbn [mbind option_bind].
  change (Normal.make (scalar_tensor 0) (scalar_tensor 1))
    with (Some (Normal.mk (Normal.expand (scalar_tensor 0) [])
                          (Normal.expand (scalar_tensor 1) []))).
  cbn [mbind option_bind].
  set (z := Normal.sample _ eps). change (shape z) with (@nil nat).
  destruct (map2_t_total Rmult std z (shape std) (broadcast_shapes_nil_r _))
    as (sz & -> & Hsz).
  cbn [mbind option_bind].
  destruct (map2_t_total Rplus mean sz s) as (pre & -> & Hpre);
    [rewrite Hsz; exact Es|].
  cbn [mbind option_bind].
  unfold clamp.
  rewrite (map2_t_unfold Rmax (map_t tanh pre) (Actor.min_action a)).
  cbn [shape map_t]. rewrite Hpre.
  destruct (broadcast_shapes s (shape (Actor.min_action a))) as [s1|];
    [|reflexivity].
  cbn [mbind option_bind].
  match goal with
  | |- context [map2_t Rmin ?t (Actor.max_action a)] =>
      rewrite (map2_t_unfold Rmin t (Actor.max_action a))
  end.
  cbn [shape].
  destruct (broadcast_shapes s1 (shape (Actor.max_action a))) as [s2|];
    [|reflexivity].
  cbn [mbind option_bind].
  destruct (Normal_log_prob_total
              (Normal.mk (Normal.expand mean s) (Normal.expand std s)) pre s
              eq_refl eq_refl Hpre) as (lp0 & -> & Hlp0).
  cbn [mbind option_bind].
  match goal with
  | |- context [map2_t Rminus lp0 ?t] => rewrite (map2_t_unfold Rminus lp0 t)
  end.
  cbn [shape map_t]. rewrite Hlp0.
  destruct (broadcast_shapes s s2); reflexivity.
Qed.

(** X16.  With vector bounds, [evaluate] on a batch of [B] default-sized
    observations returns exactly when each bound has five entries or one;
    the action, the log-probability, the mean and the deviation then have
    shape [(B, 5)] and the noise has no dimension. *)
Theorem evaluate_vector_bounds (device : string) (actor_lr : R)
    (min_action max_action : tensor) (init : string -> list nat -> R)
    (a : Actor.t) (state : tensor) (eps : list nat -> R) (k1 k2 B : nat) :
  Actor.__init__ device actor_lr min_action max_action init = Some a ->
  shape min_action = [k1] ->
  shape max_action = [k2] ->
  shape state = [B; 1; 84; 84] ->
  option_map
    (fun '(action, lp, z, mean, std) =>
       (shape action, shape lp, shape z, shape mean, shape std))
    (Actor.evaluate a state eps)
  = if ((k1 =? 5) || (k1 =? 1)) && ((k2 =? 5) || (k2 =? 1))
    then Some ([B; 5], [B; 5], [], [B; 5], [B; 5]) else None.
Proof.
  intros Ha Hmin Hmax Hst.
  destruct (Actor_init_default device actor_lr min_action max_action init)
    as (a' & Ha' & Hmn & Hmx & _ & Hs).
  rewrite Ha in Ha'. apply (inj Some) in Ha'. subst a'.
  rewrite evaluate_shape, Hst, Hs, Hmn, Hmx, Hmin, Hmax.
  unfold default_forward_shape. rewrite broadcast_vector_matrix.
  assert (Hk2 : (if k2 =? 5 then Some [B; 5]
                 else if k2 =? 1 then Some [B; 5]
                 else if 5 =? 1 then Some [B; k2] else None)
                = if (k2 =? 5) || (k2 =? 1) then Some [B; 5] else None).
  { destruct (k2 =? 5), (k2 =? 1); reflexivity. }
  rewrite Hk2. clear Hk2.
  destruct ((k2 =? 5) || (k2 =? 1)) eqn:E2.
  2:{ cbn [mbind option_bind]. rewrite andb_false_r. reflexivity. }
  cbn [mbind option_bind]. rewrite broadcast_shapes_refl.
  cbn [mbind option_bind]. rewrite broadcast_matrix_vector.
  assert (Hk1 : (if k1 =? 5 then Some [B; 5]
                 else if k1 =? 1 then Some [B; 5]
                 else if 5 =? 1 then Some [B; k1] else None)
                = if (k1 =? 5) || (k1 =? 1) then Some [B; 5] else None).
  { destruct (k1 =? 5), (k1 =? 1); reflexivity. }
  rewrite Hk1. clear Hk1.
  destruct ((k1 =? 5) || (k1 =? 1)); [|reflexivity].
  cbn [mbind option_bind andb]. rewrite broadcast_matrix_vector.
  destruct (Nat.eqb_spec k2 5) as [_|H5].
  - cbn [mbind option_bind]. rewrite broadcast_shapes_refl. reflexivity.
  - destruct (Nat.eqb_spec k2 1) as [_|H1]; [|discriminate E2].
    cbn [mbind option_bind]. rewrite broadcast_shapes_refl. reflexivity.
Qed.

Lemma evaluate_vector_bounds_witness :
  exists a,
    Actor.__init__ "cpu" (1 / 10) neg_ones5 ones5 init0 = Some a
    /\ shape neg_ones5 = [5] /\ shape ones5 = [5]
    /\ shape (zeros [3; 1; 84; 84]) = [3; 1; 84; 84]
    /\ option_map
         (fun '(action, lp, z, mean, std) =>
            (shape action, shape lp, shape z, shape mean, shape std))
         (Actor.evaluate a (zeros [3; 1; 84; 84]) eps0)
       = Some ([3; 5], [3; 5], [], [3; 5], [3; 5]).
Proof.
  destruct (Actor_init_default "cpu" (1 / 10) neg_ones5 ones5 init0)
    as (a & Ha & _).
  exists a. split; [exact Ha|]. split; [reflexivity|]. split; [reflexivity|].
  split; [reflexivity|].
  exact (evaluate_vector_bounds "cpu" (1 / 10) neg_ones5 ones5 init0 a
           (zeros [3; 1; 84; 84]) eps0 5 5 3 Ha eq_refl eq_refl eq_refl).
Defined.
